(** * shp: a small container runtime (shp.go)

    A shallow embedding of [shp.go]: the two roles of the executable
    ([run], the Launcher, and [child], the Init process), the two
    filesystem isolation strategies ([PivotRootIsolator], [ChrootIsolator])
    and the helpers around them.

    Every operating-system interaction of the program is an [Event] appended
    to a trace.  The outcome of each call is taken from an environment
    ([Env]) that may answer differently at every point of the history, so a
    statement quantified over environments covers every behaviour of the
    host.  The part of the file system the program changes (which entries
    exist, the current root and working directory) is a function of the
    initial file system and of the calls that succeeded so far. *)

From Stdlib Require Import ZArith Ascii String List Lia.
From stdpp Require Import base decidable option list strings gmap pretty.

Open Scope Z_scope.

(** ** Strings and paths (Go's [strings] and [path/filepath] on Linux) *)

Module Path.

Definition Separator : ascii := "/"%char.

(** [strings.Split(s, sep)] for a separator of one byte, which is the only
    way the program calls it ([strings.Split(cmdPath, "/")]). *)
Fixpoint strings_Split (sep : ascii) (s : string) : list string :=
  match s with
  | EmptyString => [EmptyString]
  | String c rest =>
      if Ascii.eqb c sep then EmptyString :: strings_Split sep rest
      else match strings_Split sep rest with
           | hd :: tl => String c hd :: tl
           | [] => [String c EmptyString]
           end
  end.

(** [strings.Join(elems, sep)]. *)
Fixpoint strings_Join (elems : list string) (sep : string) : string :=
  match elems with
  | [] => ""
  | [e] => e
  | e :: rest => e +:+ sep +:+ strings_Join rest sep
  end.

(** Does the byte [c] occur in [s]? *)
Fixpoint contains (c : ascii) (s : string) : bool :=
  match s with
  | EmptyString => false
  | String d rest => Ascii.eqb d c || contains c rest
  end.

(** [filepath.IsAbs] on Unix: the path starts with a slash. *)
Definition IsAbs (path : string) : bool :=
  match path with
  | String c _ => Ascii.eqb c Separator
  | EmptyString => false
  end.

(** One element of the path handled by [filepath.Clean]; [out] is the
    list of elements kept so far, the last one first.  Empty and [.]
    elements are dropped; [..] removes the element before it when there is
    one to remove, is dropped at the top of a rooted path and is kept at
    the start of a relative one. *)
Definition clean_elem (rooted : bool) (out : list string) (e : string)
  : list string :=
  if String.eqb e "" then out
  else if String.eqb e "." then out
  else if String.eqb e ".." then
    match out with
    | top :: below =>
        if String.eqb top ".." then (if rooted then out else e :: out)
        else below
    | [] => if rooted then out else [e]
    end
  else e :: out.

(** [filepath.Clean] on Unix: the shortest path equivalent to [path] by
    lexical processing (multiple separators collapsed, [.] elements
    eliminated, inner [..] elements eliminated with the element before
    them, [..] at the start of a rooted path eliminated; the empty result
    is [.]). *)
Definition Clean (path : string) : string :=
  if String.eqb path "" then "."
  else
    let rooted := IsAbs path in
    let elems := fold_left (clean_elem rooted) (strings_Split Separator path) [] in
    let out := (if rooted then "/" else "") +:+ strings_Join (rev elems) "/" in
    if String.eqb out "" then "." else out.

(** [filepath.Join]: the elements from the first non-empty one on are
    joined with the separator and the result is cleaned; when every
    element is empty the result is the empty string. *)
Fixpoint Join (elem : list string) : string :=
  match elem with
  | [] => ""
  | e :: rest =>
      if String.eqb e "" then Join rest
      else Clean (strings_Join (e :: rest) "/")
  end.

(** The ancestors of a path down to the path itself, which are the
    directories that [os.MkdirAll] makes sure exist: [/a/b/c] gives [/a],
    [/a/b] and [/a/b/c]. *)
Fixpoint prefixes_from (acc : string) (elems : list string) : list string :=
  match elems with
  | [] => []
  | e :: rest =>
      let p := (if String.eqb acc "/" then acc else acc +:+ "/") +:+ e in
      p :: prefixes_from p rest
  end.

Definition ancestors (path : string) : list string :=
  prefixes_from "/"
    (filter (fun e => e ≠ "") (strings_Split Separator (Clean path))).

End Path.

Import Path.

(** ** Operating-system calls, events and the environment *)

(** [exec.Cmd] as the program fills it in: the path to run, the arguments
    after the program name, whether the three standard streams are the
    caller's own, and [SysProcAttr.Cloneflags] (0 when no attribute is
    set). *)
Record Cmd := mkCmd {
  Path : string;
  Args : list string;
  Stdio_inherited : bool;
  Cloneflags : Z
}.

Inductive Call :=
| os_Stat (name : string)
| os_Getwd
| os_MkdirAll (path : string) (perm : Z)
| syscall_PivotRoot (newroot putold : string)
| syscall_Chdir (path : string)
| syscall_Unmount (target : string) (flags : Z)
| os_Remove (name : string)
| syscall_Chroot (path : string)
| syscall_Mount (source target fstype : string) (flags : Z) (data : string)
| cmd_Start (c : Cmd)
| cmd_Wait (c : Cmd).

(** What the program does that the outside can see: text written to the
    standard output, and calls with the error they returned ([None] is Go's
    [nil]). *)
Inductive Event :=
| Print (text : string)
| Sys (c : Call) (err : option string).

(** How a started process ends. *)
Inductive WaitStatus :=
| Exited (code : Z)
| Signaled (signal : string).

(** The entries that exist, named by their absolute path in the root the
    process started with, the current root and the working directory. *)
Record FS := mkFS {
  fs_root : string;
  fs_cwd : string;
  fs_entries : gset string
}.

(** The environment of a process: the file system it starts in, the error
    (if any) of each call at each point of the history, and the way a
    process that was started ends. *)
Record Env := mkEnv {
  env_fs : FS;
  env_err : list Event -> Call -> option string;
  env_status : list Event -> Cmd -> WaitStatus
}.

Definition resolve (fs : FS) (p : string) : string :=
  if IsAbs p then Join [fs_root fs; p] else Join [fs_cwd fs; p].

(** The effect of a call that succeeded on the file system. *)
Definition apply_call (fs : FS) (c : Call) : FS :=
  match c with
  | os_MkdirAll path _ =>
      mkFS (fs_root fs) (fs_cwd fs)
           (fs_entries fs ∪ {[ resolve fs path ]}
                          ∪ list_to_set (ancestors (resolve fs path)))
  | os_Remove name =>
      mkFS (fs_root fs) (fs_cwd fs) (fs_entries fs ∖ {[ resolve fs name ]})
  | syscall_PivotRoot newroot _ =>
      mkFS (resolve fs newroot) (fs_cwd fs) (fs_entries fs)
  | syscall_Chroot path =>
      mkFS (resolve fs path) (fs_cwd fs) (fs_entries fs)
  | syscall_Chdir path =>
      mkFS (fs_root fs) (resolve fs path) (fs_entries fs)
  | _ => fs
  end.

Definition apply_event (fs : FS) (e : Event) : FS :=
  match e with
  | Sys c None => apply_call fs c
  | _ => fs
  end.

(** The file system after a history. *)
Definition fs_after (fs : FS) (t : list Event) : FS :=
  fold_left apply_event t fs.

Definition exists_in (fs : FS) (p : string) : bool :=
  bool_decide (resolve fs p ∈ fs_entries fs).

(** The text of [ProcessState.String()], which is the text of the
    [exec.ExitError] that [Wait] returns for a process that did not exit
    with status 0. *)
Definition status_text (st : WaitStatus) : string :=
  match st with
  | Exited code => "exit status " +:+ pretty code
  | Signaled signal => "signal: " +:+ signal
  end.

(** ** Computations: a trace of events and an early exit *)

Inductive Outcome (A : Type) :=
| Ret (a : A)
| Exit (code : Z).
Arguments Ret {A} a.
Arguments Exit {A} code.

Definition M (A : Type) : Type := Env -> list Event -> Outcome A * list Event.

Definition ret {A} (a : A) : M A := fun _ t => (Ret a, t).

Definition bind {A B} (m : M A) (k : A -> M B) : M B :=
  fun env t =>
    match m env t with
    | (Ret a, t') => k a env t'
    | (Exit code, t') => (Exit code, t')
    end.

Declare Scope go_scope.
Delimit Scope go_scope with go.
Notation "x <- m ;; k" := (bind m (fun x => k))
  (at level 100, m at next level, k at level 200, right associativity) : go_scope.
Notation "m ;;; k" := (bind m (fun _ => k))
  (at level 100, k at level 200, right associativity) : go_scope.
Open Scope go_scope.

Definition LF : string := String "010"%char EmptyString.

Definition fmt_Printf (text : string) : M unit :=
  fun _ t => (Ret tt, t ++ [Print text]).

Definition fmt_Println (text : string) : M unit := fmt_Printf (text +:+ LF).

Definition os_Exit {A} (code : Z) : M A := fun _ t => (Exit code, t).

(** A call whose only result is an error. *)
Definition sys (c : Call) : M (option string) :=
  fun env t => let err := env_err env t c in (Ret err, t ++ [Sys c err]).

(** [os.Stat], of which the program keeps only the error.  Whether the name
    resolves to an entry, and the error reported when it does not (the name
    is empty, a component is missing or is not a directory, a permission is
    refused, ...), is decided by the kernel: both are taken from the
    environment. *)
Definition Stat (name : string) : M (option string) :=
  fun env t =>
    let err := env_err env t (os_Stat name) in
    (Ret err, t ++ [Sys (os_Stat name) err]).

(** [os.Getwd]: the working directory, or an error. *)
Definition Getwd : M (string * option string) :=
  fun env t =>
    let err := env_err env t os_Getwd in
    (Ret (match err with
          | None => (fs_cwd (fs_after (env_fs env) t), None)
          | Some e => ("", Some e)
          end), t ++ [Sys os_Getwd err]).

(** [filepath.Abs] on Unix. *)
Definition filepath_Abs (path : string) : M (string * option string) :=
  if IsAbs path then ret (Clean path, None)
  else
    r <- Getwd ;;
    match r with
    | (_, Some e) => ret ("", Some e)
    | (wd, None) => ret (Join [wd; path], None)
    end.

(** [exec.Command] for a name that contains a separator (no lookup in
    PATH); the program then sets the three streams to its own. *)
Definition exec_Command (name : string) (arg : list string) : Cmd :=
  mkCmd name arg true 0.

(** [Cmd.Wait]: [nil] if the process exited with status 0, the exit
    error otherwise; waiting itself may fail. *)
Definition Wait (c : Cmd) : M (option string) :=
  fun env t =>
    let err :=
      match env_err env t (cmd_Wait c) with
      | Some e => Some e
      | None =>
          match env_status env t c with
          | Exited 0 => None
          | st => Some (status_text st)
          end
      end in
    (Ret err, t ++ [Sys (cmd_Wait c) err]).

(** [Cmd.Run]: start the command as a new process and wait for it. *)
Definition Run (c : Cmd) : M (option string) :=
  err <- sys (cmd_Start c) ;;
  match err with
  | Some e => ret (Some e)
  | None => Wait c
  end.

(** ** The program *)

Definition oldRootDir : string := ".old_root".
Definition procFS : string := "proc".

Definition CLONE_NEWNS : Z := 0x00020000.
Definition CLONE_NEWUTS : Z := 0x04000000.
Definition CLONE_NEWPID : Z := 0x20000000.
Definition MNT_DETACH : Z := 0x2.

(** The permission bits [0700] (octal). *)
Definition mode_0700 : Z := 7 * 64.

Definition usage_run : string := "usage: shp run <rootfs_path> <cmd> [options]".
Definition usage_child : string := "usage: shp child <rootfs_path> <cmd> [options]".

Definition handle (err : option string) : M unit :=
  match err with
  | Some e => fmt_Printf (LF +:+ e +:+ LF) ;;; os_Exit 1
  | None => ret tt
  end.

Definition mountProc : M (option string) :=
  sys (syscall_Mount procFS procFS procFS 0 "").

Definition getCmdPath_warning (cmdPath : string) : string :=
  "WARNING! Absolute path resolution for [" +:+ cmdPath +:+
  "] will be done based on the new rootfs (inside container)." +:+ LF.

Definition getCmdPath_info (cmdPath : string) : string :=
  "INFO: Resolving command [" +:+ cmdPath +:+
  "] inside /bin of the new rootfs." +:+ LF.

Definition getCmdPath (cmdPath : string) : M string :=
  let splits := strings_Split "/" cmdPath in
  if (1 <? length splits)%nat then
    fmt_Printf (getCmdPath_warning cmdPath) ;;;
    ret cmdPath
  else
    fmt_Printf (getCmdPath_info cmdPath) ;;;
    ret (Join ["/bin/"; cmdPath]).

Definition validateRootfs (rootfs : string) : M (option string) :=
  err <- Stat rootfs ;;
  match err with
  | Some e => ret (Some ("rootfs path does not exist: " +:+ rootfs +:+ ": " +:+ e))
  | None => ret None
  end.

(** [ChrootIsolator.Isolate] *)
Definition ChrootIsolator_Isolate (rootfs : string) : M (option string) :=
  err <- sys (syscall_Chroot rootfs) ;;
  match err with
  | Some e => ret (Some ("chroot failed: " +:+ e))
  | None =>
      err <- sys (syscall_Chdir "/") ;;
      match err with
      | Some e => ret (Some ("chdir to / failed after chroot: " +:+ e))
      | None =>
          fmt_Println "Using chroot for filesystem isolation" ;;;
          ret None
      end
  end.

(** [PivotRootIsolator.Isolate] *)
Definition PivotRootIsolator_Isolate (rootfs : string) : M (option string) :=
  r <- filepath_Abs rootfs ;;
  match r with
  | (_, Some e) =>
      ret (Some ("cannot get absolute path for " +:+ rootfs +:+ ": " +:+ e))
  | (absNewRoot, None) =>
      let oldRoot := Join [absNewRoot; oldRootDir] in
      err <- sys (os_MkdirAll oldRoot mode_0700) ;;
      match err with
      | Some e => ret (Some ("cannot create old_root directory: " +:+ e))
      | None =>
          err <- sys (syscall_PivotRoot absNewRoot oldRoot) ;;
          match err with
          | Some e => ret (Some ("pivot_root failed: " +:+ e))
          | None =>
              err <- sys (syscall_Chdir "/") ;;
              match err with
              | Some e => ret (Some ("chdir to / failed after pivot_root: " +:+ e))
              | None =>
                  err <- sys (syscall_Unmount ("/" +:+ oldRootDir) MNT_DETACH) ;;
                  match err with
                  | Some e =>
                      fmt_Printf ("Warning: unmounting old root failed: " +:+ e +:+ LF)
                  | None => ret tt
                  end ;;;
                  err <- sys (os_Remove ("/" +:+ oldRootDir)) ;;
                  match err with
                  | Some e =>
                      fmt_Printf ("Warning: removing old root directory failed: " +:+ e +:+ LF)
                  | None => ret tt
                  end ;;;
                  fmt_Println "Successfully using pivot_root" ;;;
                  ret None
              end
          end
      end
  end.

Definition fallback_warning (e : string) : string :=
  "pivot_root failed: " +:+ e +:+ LF +:+ "Falling back to chroot..." +:+ LF.

Definition child (args : list string) : M unit :=
  (if (length args <? 2)%nat
   then fmt_Println usage_child ;;; os_Exit 1
   else ret tt) ;;;
  let rootfs := nth 0 args "" in
  let cmdArgs := skipn 1 args in
  err <- validateRootfs rootfs ;;
  handle err ;;;
  binPath <- getCmdPath (nth 0 cmdArgs "") ;;
  let cmd := exec_Command binPath (skipn 1 cmdArgs) in
  err <- PivotRootIsolator_Isolate rootfs ;;
  match err with
  | Some e =>
      fmt_Printf (fallback_warning e) ;;;
      err <- ChrootIsolator_Isolate rootfs ;;
      handle err
  | None => ret tt
  end ;;;
  err <- mountProc ;;
  handle err ;;;
  err <- Run cmd ;;
  handle err.

Definition run_cmd (args : list string) : Cmd :=
  mkCmd "/proc/self/exe" ("child" :: args) true
        (Z.lor (Z.lor CLONE_NEWUTS CLONE_NEWPID) CLONE_NEWNS).

Definition run (args : list string) : M unit :=
  (if (length args <? 2)%nat
   then fmt_Println usage_run ;;; os_Exit 1
   else ret tt) ;;;
  let cmd := run_cmd args in
  err <- Run cmd ;;
  handle err.

Definition main (os_Args : list string) : M unit :=
  if (length os_Args <? 2)%nat then
    fmt_Println usage_run
  else
    let sub := nth 1 os_Args "" in
    if String.eqb sub "run" then run (skipn 2 os_Args)
    else if String.eqb sub "child" then child (skipn 2 os_Args)
    else fmt_Println usage_run.

(** The exit status of the process: that given to [os.Exit], or 0 when
    [main] returns. *)
Definition exit_code {A} (o : Outcome A) : Z :=
  match o with
  | Ret _ => 0
  | Exit code => code
  end.

(** ** The Launcher together with the process it spawns *)

Inductive Role := Launcher | Init.

Definition is_start_ok (e : Event) : bool :=
  match e with
  | Sys (cmd_Start _) None => true
  | _ => false
  end.

(** The events of the spawned process take place after the Launcher has
    started it and before the Launcher's wait returns. *)
Fixpoint splice (launcher : list Event) (init : list (Role * Event))
  : list (Role * Event) :=
  match launcher with
  | [] => []
  | e :: rest =>
      if is_start_ok e then (Launcher, e) :: init ++ map (pair Launcher) rest
      else (Launcher, e) :: splice rest init
  end.

(** [shp run args]: the Launcher runs in [lenv]; the process it starts is
    this executable with the arguments [child args], it runs in [ienv], and
    the status the Launcher's wait observes is the exit status of that
    process. *)
Definition launch (lenv ienv : Env) (args : list string)
  : Z * Z * list (Role * Event) :=
  let c := run_cmd args in
  let '(iout, itrace) := main (Path c :: Args c) ienv [] in
  let lenv' := mkEnv (env_fs lenv) (env_err lenv)
                     (fun _ _ => Exited (exit_code iout)) in
  let '(lout, ltrace) := run args lenv' [] in
  (exit_code lout, exit_code iout, splice ltrace (map (pair Init) itrace)).

(** ** Vocabulary of the statements *)

(** The path [getCmdPath] returns and the line it prints. *)
Definition resolved (cmdPath : string) : string :=
  if contains "/" cmdPath then cmdPath else Join ["/bin/"; cmdPath].

Definition resolution_message (cmdPath : string) : string :=
  if contains "/" cmdPath then getCmdPath_warning cmdPath
  else getCmdPath_info cmdPath.

(** Mounting a file system. *)
Definition is_mount (e : Event) : bool :=
  match e with
  | Sys (syscall_Mount _ _ _ _ _) _ => true
  | _ => false
  end.

(** Starting the target command (or waiting for it). *)
Definition is_launch (e : Event) : bool :=
  match e with
  | Sys (cmd_Start _) _ | Sys (cmd_Wait _) _ => true
  | _ => false
  end.

(** The calls of the two isolation strategies. *)
Definition is_isolation (e : Event) : bool :=
  match e with
  | Sys os_Getwd _ | Sys (os_MkdirAll _ _) _ | Sys (syscall_PivotRoot _ _) _
  | Sys (syscall_Chdir _) _ | Sys (syscall_Unmount _ _) _ | Sys (os_Remove _) _
  | Sys (syscall_Chroot _) _ => true
  | _ => false
  end.

(** Creating namespaces: starting a process with clone flags. *)
Definition creates_namespaces (e : Event) : bool :=
  match e with
  | Sys (cmd_Start c) _ => negb (Cloneflags c =? 0)
  | _ => false
  end.

(** Removing a file or a directory. *)
Definition is_remove (e : Event) : bool :=
  match e with
  | Sys (os_Remove _) _ => true
  | _ => false
  end.

(** If the event is a mount, it is the mount of [proc] on [proc], of type
    [proc], without flags and without options. *)
Definition mount_is_proc (e : Event) : Prop :=
  match e with
  | Sys (syscall_Mount source target fstype flags data) _ =>
      source = "proc" /\ target = "proc" /\ fstype = "proc" /\ flags = 0 /\ data = ""
  | _ => True
  end.

Definition any_event (e : Event) : Prop := True.

Definition no_mount_no_launch (e : Event) : Prop :=
  is_mount e = false /\ is_launch e = false.

(** What a cleanup step of the Primary strategy leaves in the trace after
    its call: a warning when the call failed, nothing otherwise. *)
Definition cleanup_log (what : string) (err : option string) : list Event :=
  match err with
  | Some e => [Print (what +:+ e +:+ LF)]
  | None => []
  end.

(** The error of [os.Stat] on a name that does not exist, and the error
    [validateRootfs] makes of it. *)
Definition stat_error (rootfs : string) : string :=
  "stat " +:+ rootfs +:+ ": no such file or directory".

Definition validation_error (rootfs : string) : string :=
  "rootfs path does not exist: " +:+ rootfs +:+ ": " +:+ stat_error rootfs.

(** [emits P m]: whatever the environment and the history, [m] only adds
    events to the trace, and each event it adds satisfies [P]. *)
Definition emits {A} (P : Event -> Prop) (m : M A) : Prop :=
  forall env t, exists l, snd (m env t) = t ++ l /\ Forall P l.

(** [exits_with Q m]: when [m] ends the process, the exit code satisfies
    [Q]. *)
Definition exits_with {A} (Q : Z -> Prop) (m : M A) : Prop :=
  forall env t, match fst (m env t) with
                | Exit code => Q code
                | Ret _ => True
                end.

(** ** Example hosts and inputs *)

Definition fs0 : FS :=
  mkFS "/" "/home/user"
       (list_to_set ["/tmp"; "/tmp/rootfs"; "/home"; "/home/user"]).

(** A host on which every call succeeds and every process exits with 0. *)
Definition env_ok : Env := mkEnv fs0 (fun _ _ => None) (fun _ _ => Exited 0).

(** A host on which [pivot_root] is refused (the new root is on the file
    system of the current root) and everything else succeeds. *)
Definition env_same_fs : Env :=
  mkEnv fs0
        (fun _ c => match c with
                    | syscall_PivotRoot _ _ => Some "invalid argument"
                    | _ => None
                    end)
        (fun _ _ => Exited 0).

(** A host on which neither [pivot_root] nor [chroot] is permitted. *)
Definition env_unprivileged : Env :=
  mkEnv fs0
        (fun _ c => match c with
                    | syscall_PivotRoot _ _ | syscall_Chroot _ =>
                        Some "operation not permitted"
                    | _ => None
                    end)
        (fun _ _ => Exited 0).

(** A host on which the root swap works and both cleanup calls fail. *)
Definition env_cleanup_fails : Env :=
  mkEnv fs0
        (fun _ c => match c with
                    | syscall_Unmount _ _ => Some "invalid argument"
                    | os_Remove _ => Some "remove /.old_root: device or resource busy"
                    | _ => None
                    end)
        (fun _ _ => Exited 0).

(** A host on which the spawned process ends with exit status 2 (the
    status of a Go program stopped by a fatal error of its runtime). *)
Definition env_init_exits_2 : Env :=
  mkEnv fs0 (fun _ _ => None) (fun _ _ => Exited 2).

(** A host on which [/tmp/does-not-exist] does not exist: [stat] fails on
    it and every other call succeeds. *)
Definition env_missing_root : Env :=
  mkEnv fs0
        (fun _ c => match c with
                    | os_Stat name =>
                        if String.eqb name "/tmp/does-not-exist"
                        then Some (stat_error name) else None
                    | _ => None
                    end)
        (fun _ _ => Exited 0).

(** A host on which [stat] fails on the empty name and on a name that goes
    through the regular file [/etc/hostname]. *)
Definition env_bad_roots : Env :=
  mkEnv fs0
        (fun _ c => match c with
                    | os_Stat "" => Some "stat : no such file or directory"
                    | os_Stat "/etc/hostname/rootfs" =>
                        Some "stat /etc/hostname/rootfs: not a directory"
                    | _ => None
                    end)
        (fun _ _ => Exited 0).

(** Inputs and pieces of traces of the examples. *)
Definition missing_root_args : list string :=
  ["/tmp/does-not-exist"; "/bin/true"].

Definition ex_stat : list Event := [Sys (os_Stat "/tmp/rootfs") None].

Definition ex_mkdir : Event :=
  Sys (os_MkdirAll "/tmp/rootfs/.old_root" mode_0700) None.

Definition ex_pivot (err : option string) : Event :=
  Sys (syscall_PivotRoot "/tmp/rootfs" "/tmp/rootfs/.old_root") err.

Definition ex_true : Cmd := mkCmd "/bin/true" [] true 0.

Definition ex_isolated : list Event :=
  [Sys (os_Stat "/tmp/rootfs") None;
   Print (getCmdPath_warning "/bin/true");
   ex_mkdir; ex_pivot None;
   Sys (syscall_Chdir "/") None;
   Sys (syscall_Unmount "/.old_root" MNT_DETACH) None;
   Sys (os_Remove "/.old_root") None;
   Print ("Successfully using pivot_root" +:+ LF);
   Sys (syscall_Mount "proc" "proc" "proc" 0 "") None].

(** ** Vocabulary of the further statements *)

(** An element of a cleaned path: not empty, not [.] or [..], without a
    separator. *)
Definition plain (e : string) : Prop :=
  e <> "" /\ e <> "." /\ e <> ".." /\ contains "/" e = false.

(** The rooted path with the given elements. *)
Definition path_of (elems : list string) : string :=
  "/" +:+ strings_Join elems "/".

(** The two cleanup calls of the Primary strategy. *)
Definition unmount_call : Call := syscall_Unmount ("/" +:+ oldRootDir) MNT_DETACH.
Definition remove_call : Call := os_Remove ("/" +:+ oldRootDir).

(** The events of the Primary strategy, after the absolute path is known,
    when it succeeds: [eu] and [er] are the results of the two cleanup
    calls. *)
Definition primary_success_events (a : string) (eu er : option string)
  : list Event :=
  [Sys (os_MkdirAll (Join [a; oldRootDir]) mode_0700) None;
   Sys (syscall_PivotRoot a (Join [a; oldRootDir])) None;
   Sys (syscall_Chdir "/") None;
   Sys unmount_call eu]
  ++ cleanup_log "Warning: unmounting old root failed: " eu
  ++ [Sys remove_call er]
  ++ cleanup_log "Warning: removing old root directory failed: " er
  ++ [Print ("Successfully using pivot_root" +:+ LF)].

(** An event of the Launcher: output, or the start of (or the wait for) the
    Init process. *)
Definition launcher_event (args : list string) (e : Event) : Prop :=
  match e with
  | Print _ => True
  | Sys (cmd_Start c) _ | Sys (cmd_Wait c) _ => c = run_cmd args
  | Sys _ _ => False
  end.

(** What [child] does once the root is isolated. *)
Definition after_isolation (c : Cmd) : M unit :=
  err <- mountProc ;;
  handle err ;;;
  err <- Run c ;;
  handle err.

(** [isolated env rootfs cmd t h]: started at history [t], [child] has
    validated [rootfs], resolved [cmd] and isolated the root, by the Primary
    strategy or, after its failure, by the Legacy strategy; [h] is the
    history at that point. *)
Definition isolated (env : Env) (rootfs cmd : string) (t h : list Event) : Prop :=
  exists t1,
    validateRootfs rootfs env t = (Ret None, t1) /\
    (PivotRootIsolator_Isolate rootfs env
       (t1 ++ [Print (resolution_message cmd)]) = (Ret None, h) \/
     exists e t2,
       PivotRootIsolator_Isolate rootfs env
         (t1 ++ [Print (resolution_message cmd)]) = (Ret (Some e), t2) /\
       ChrootIsolator_Isolate rootfs env
         (t2 ++ [Print (fallback_warning e)]) = (Ret None, h)).

(** A call of [chroot], whatever its result. *)
Definition is_chroot_call (e : Event) : bool :=
  match e with
  | Sys (syscall_Chroot _) _ => true
  | _ => false
  end.

(** The call of [mountProc]. *)
Definition mount_proc_call : Call := syscall_Mount "proc" "proc" "proc" 0 "".

(** Output, or a call of the given class. *)
Definition printed_or (class : Event -> bool) (e : Event) : Prop :=
  match e with
  | Print _ => True
  | _ => class e = true
  end.

(** A call of [os.Stat]. *)
Definition is_stat (e : Event) : bool :=
  match e with
  | Sys (os_Stat _) _ => true
  | _ => false
  end.

(** [in_phases Ps l]: [l] is made of consecutive segments, one for each
    predicate of [Ps], in this order; a segment may be empty. *)
Definition in_phases (Ps : list (Event -> Prop)) (l : list Event) : Prop :=
  exists segments, l = concat segments /\ Forall2 (fun P s => Forall P s) Ps segments.

(** [phased Ps m]: [m] only adds events, and they come in the phases
    [Ps]. *)
Definition phased {A} (Ps : list (Event -> Prop)) (m : M A) : Prop :=
  forall env t, exists l, snd (m env t) = t ++ l /\ in_phases Ps l.

(** [reports_exit m]: when [m] ends the process, the code is 1 and the last
    event is a line of output. *)
Definition reports_exit {A} (m : M A) : Prop :=
  forall env t,
    match m env t with
    | (Exit code, t') => code = 1 /\ exists l text, t' = l ++ [Print text]
    | (Ret _, _) => True
    end.

(** If the event starts a process or waits for one, the command is [c]. *)
Definition launches_only (c : Cmd) (e : Event) : Prop :=
  match e with
  | Sys (cmd_Start c') _ | Sys (cmd_Wait c') _ => c' = c
  | _ => True
  end.

(** ** Further example hosts *)

(** A host on which the mount of [proc] is refused. *)
Definition env_no_mount : Env :=
  mkEnv fs0
        (fun _ c => match c with
                    | syscall_Mount _ _ _ _ _ => Some "operation not permitted"
                    | _ => None
                    end)
        (fun _ _ => Exited 0).

(** A host on which no process can be started. *)
Definition env_no_start : Env :=
  mkEnv fs0
        (fun _ c => match c with
                    | cmd_Start _ => Some "fork/exec: no such file or directory"
                    | _ => None
                    end)
        (fun _ _ => Exited 0).

(** A host on which every process that is started exits with status 3. *)
Definition env_exits_3 : Env := mkEnv fs0 (fun _ _ => None) (fun _ _ => Exited 3).

(** A host on which [stat] is refused. *)
Definition env_stat_denied : Env :=
  mkEnv fs0
        (fun _ c => match c with
                    | os_Stat _ => Some "stat /tmp/rootfs: permission denied"
                    | _ => None
                    end)
        (fun _ _ => Exited 0).

(** A host on which no change of directory works. *)
Definition env_no_chdir : Env :=
  mkEnv fs0
        (fun _ c => match c with
                    | syscall_Chdir _ => Some "no such file or directory"
                    | _ => None
                    end)
        (fun _ _ => Exited 0).

(** The history of [child /tmp/rootfs ls] once the Primary strategy has
    succeeded with its cleanup. *)
Definition ex_primary_done : list Event :=
  [Sys (os_Stat "/tmp/rootfs") None;
   Print (getCmdPath_info "ls");
   ex_mkdir; ex_pivot None;
   Sys (syscall_Chdir "/") None;
   Sys (syscall_Unmount "/.old_root" MNT_DETACH) None;
   Sys (os_Remove "/.old_root") None;
   Print ("Successfully using pivot_root" +:+ LF)].

(** ** Reasoning about computations *)

Section Monad_facts.
Context {A B : Type}.
Implicit Types (m : M A) (k : A -> M B).

Lemma bind_ret m k env t a t1 :
  m env t = (Ret a, t1) -> bind m k env t = k a env t1.
Proof. intros H. unfold bind. now rewrite H. Qed.

Lemma bind_exit m k env t code t1 :
  m env t = (Exit code, t1) -> bind m k env t = (Exit code, t1).
Proof. intros H. unfold bind. now rewrite H. Qed.

(** A computation that returned went through both of its halves. *)
Lemma bind_inv_ret m k env t b t2 :
  bind m k env t = (Ret b, t2) ->
  exists a t1, m env t = (Ret a, t1) /\ k a env t1 = (Ret b, t2).
Proof.
  unfold bind. destruct (m env t) as [[a|code] t1]; intros H.
  - eauto.
  - discriminate.
Qed.

Lemma bind_inv_exit m k env t code t2 :
  bind m k env t = (Exit code, t2) ->
  m env t = (Exit code, t2) \/
  exists a t1, m env t = (Ret a, t1) /\ k a env t1 = (Exit code, t2).
Proof.
  unfold bind. destruct (m env t) as [[a|c] t1]; intros H.
  - right. eauto.
  - left. congruence.
Qed.
End Monad_facts.

Lemma bind_assoc {A B C} (m : M A) (k1 : A -> M B) (k2 : B -> M C) env t :
  bind (bind m k1) k2 env t = bind m (fun a => bind (k1 a) k2) env t.
Proof. unfold bind. destruct (m env t) as [[a|code] t1]; reflexivity. Qed.

Lemma bind_Printf {B} text (k : unit -> M B) env t :
  bind (fmt_Printf text) k env t = k tt env (t ++ [Print text]).
Proof. reflexivity. Qed.

Lemma bind_sys {B} c (k : option string -> M B) env t :
  bind (sys c) k env t =
  k (env_err env t c) env (t ++ [Sys c (env_err env t c)]).
Proof. reflexivity. Qed.

Section Emits.
Context (P : Event -> Prop).

Lemma emits_ret {A} (a : A) : emits P (ret a).
Proof. intros env t. exists []. split; [symmetry; apply app_nil_r | constructor]. Qed.

Lemma emits_Exit {A} code : emits P (@os_Exit A code).
Proof. intros env t. exists []. split; [symmetry; apply app_nil_r | constructor]. Qed.

Lemma emits_bind {A B} (m : M A) (k : A -> M B) :
  emits P m -> (forall a, emits P (k a)) -> emits P (bind m k).
Proof.
  intros Hm Hk env t. unfold bind.
  destruct (Hm env t) as (l1 & E1 & F1).
  destruct (m env t) as [[a|code] t1]; simpl in E1; subst t1.
  - destruct (Hk a env (t ++ l1)) as (l2 & E2 & F2).
    exists (l1 ++ l2). rewrite E2, app_assoc. split; [reflexivity|].
    apply Forall_app; auto.
  - exists l1. auto.
Qed.

Lemma emits_Printf text : P (Print text) -> emits P (fmt_Printf text).
Proof. intros H env t. exists [Print text]. split; [reflexivity | auto]. Qed.

Lemma emits_Println text : P (Print (text +:+ LF)) -> emits P (fmt_Println text).
Proof. apply emits_Printf. Qed.

Lemma emits_sys c : (forall err, P (Sys c err)) -> emits P (sys c).
Proof. intros H env t. eexists [_]. split; [reflexivity | auto]. Qed.

Lemma emits_Stat name : (forall err, P (Sys (os_Stat name) err)) -> emits P (Stat name).
Proof. intros H env t. eexists [_]. split; [reflexivity | auto]. Qed.

Lemma emits_Getwd : (forall err, P (Sys os_Getwd err)) -> emits P Getwd.
Proof. intros H env t. eexists [_]. split; [reflexivity | auto]. Qed.

Lemma emits_Wait c : (forall err, P (Sys (cmd_Wait c) err)) -> emits P (Wait c).
Proof. intros H env t. eexists [_]. split; [reflexivity | auto]. Qed.

Hypothesis P_print : forall text, P (Print text).

Lemma emits_handle err : emits P (handle err).
Proof.
  destruct err as [e|]; simpl.
  - apply emits_bind; [now apply emits_Printf | intros _; apply emits_Exit].
  - apply emits_ret.
Qed.

Lemma emits_getCmdPath cmdPath : emits P (getCmdPath cmdPath).
Proof.
  unfold getCmdPath. destruct (_ <? _)%nat;
    (apply emits_bind; [now apply emits_Printf | intros _; apply emits_ret]).
Qed.
End Emits.

(** ** Facts about paths *)

Lemma strings_Split_no_sep sep s :
  contains sep s = false -> strings_Split sep s = [s].
Proof.
  induction s as [|c s IH]; simpl; [reflexivity|].
  destruct (Ascii.eqb c sep); simpl; [discriminate|].
  intros H. now rewrite (IH H).
Qed.

Lemma strings_Split_not_nil sep s : strings_Split sep s <> [].
Proof.
  destruct s as [|c s]; simpl; [discriminate|].
  destruct (Ascii.eqb c sep); [discriminate|].
  destruct (strings_Split sep s); discriminate.
Qed.

(** The test [len(splits) > 1] of [getCmdPath] is the test that the command
    contains a separator. *)
Lemma strings_Split_length sep s :
  (1 <? length (strings_Split sep s))%nat = contains sep s.
Proof.
  induction s as [|c s IH]; simpl; [reflexivity|].
  destruct (Ascii.eqb c sep); simpl.
  - pose proof (strings_Split_not_nil sep s).
    destruct (strings_Split sep s); [congruence | reflexivity].
  - rewrite <- IH.
    pose proof (strings_Split_not_nil sep s).
    destruct (strings_Split sep s) as [|hd tl]; [congruence | reflexivity].
Qed.

Lemma clean_elem_plain rooted out e :
  e <> "" -> e <> "." -> e <> ".." -> clean_elem rooted out e = e :: out.
Proof.
  intros H0 H1 H2. unfold clean_elem.
  apply String.eqb_neq in H0, H1, H2. now rewrite H0, H1, H2.
Qed.

(** Joining [/bin/] and a plain name (no separator, and not one of the
    names that [filepath.Clean] gives a meaning to) puts the name under
    [/bin]. *)
Lemma Join_bin name :
  contains "/" name = false ->
  name <> "" -> name <> "." -> name <> ".." ->
  Join ["/bin/"; name] = "/bin/" +:+ name.
Proof.
  intros Hsep H0 H1 H2.
  assert (E : strings_Split Separator (strings_Join ["/bin/"; name] "/")
              = [""; "bin"; ""; name]).
  { cbv [strings_Join String.append Separator].
    cbn [strings_Split Ascii.eqb Bool.eqb].
    now rewrite (strings_Split_no_sep _ _ Hsep). }
  unfold Join. change (String.eqb "/bin/" "") with false. cbv iota.
  unfold Clean. rewrite E. cbn [fold_left].
  change (clean_elem (IsAbs (strings_Join ["/bin/"; name] "/")) [] "") with (@nil string).
  change (clean_elem (IsAbs (strings_Join ["/bin/"; name] "/")) [] "bin") with ["bin"].
  change (clean_elem (IsAbs (strings_Join ["/bin/"; name] "/")) ["bin"] "") with ["bin"].
  rewrite clean_elem_plain by assumption.
  reflexivity.
Qed.

(** ** Facts about the helpers *)

Lemma getCmdPath_eq cmdPath env t :
  getCmdPath cmdPath env t =
  (Ret (resolved cmdPath), t ++ [Print (resolution_message cmdPath)]).
Proof.
  unfold getCmdPath, resolved, resolution_message.
  change (String "/" EmptyString) with (String Separator EmptyString).
  rewrite (strings_Split_length "/" cmdPath).
  destruct (contains "/" cmdPath); reflexivity.
Qed.

Lemma validateRootfs_ok rootfs env t t1 :
  validateRootfs rootfs env t = (Ret None, t1) ->
  t1 = t ++ [Sys (os_Stat rootfs) None].
Proof.
  unfold validateRootfs, bind, Stat, ret.
  destruct (env_err env t (os_Stat rootfs)); intros H; now inversion H.
Qed.

(** Solves [emits P m] for the computations of this file by following the
    shape of [m]; the events are then checked against [P]. *)
Ltac emits_step :=
  first
    [ apply emits_ret
    | apply emits_Exit
    | apply emits_handle
    | apply emits_getCmdPath
    | apply emits_Printf
    | apply emits_Println
    | apply emits_sys
    | apply emits_Stat
    | apply emits_Getwd
    | apply emits_Wait
    | apply emits_bind
    | match goal with
      | |- emits _ (match ?x with _ => _ end) => destruct x
      | |- emits _ (if ?b then _ else _) => destruct b
      | |- forall _, _ => intro
      end ].

Ltac emits_auto := repeat emits_step; try (simpl; tauto).

Section Emits_functions.
Context (P : Event -> Prop).
Hypothesis P_print : forall text, P (Print text).

Lemma emits_validateRootfs rootfs :
  (forall err, P (Sys (os_Stat rootfs) err)) ->
  emits P (validateRootfs rootfs).
Proof. intros H. unfold validateRootfs. emits_auto; auto. Qed.

Lemma emits_Run c :
  (forall err, P (Sys (cmd_Start c) err)) ->
  (forall err, P (Sys (cmd_Wait c) err)) ->
  emits P (Run c).
Proof. intros H1 H2. unfold Run. emits_auto; auto. Qed.

Lemma emits_ChrootIsolator rootfs :
  (forall err, P (Sys (syscall_Chroot rootfs) err)) ->
  (forall err, P (Sys (syscall_Chdir "/") err)) ->
  emits P (ChrootIsolator_Isolate rootfs).
Proof. intros H1 H2. unfold ChrootIsolator_Isolate. emits_auto; auto. Qed.

Lemma emits_PivotRootIsolator rootfs :
  (forall c err,
     match c with
     | os_Getwd | os_MkdirAll _ _ | syscall_PivotRoot _ _ | syscall_Chdir _
     | syscall_Unmount _ _ | os_Remove _ => P (Sys c err)
     | _ => True
     end) ->
  emits P (PivotRootIsolator_Isolate rootfs).
Proof.
  intros H. unfold PivotRootIsolator_Isolate, filepath_Abs.
  emits_auto; auto;
    match goal with |- P (Sys ?c ?err) => exact (H c err) end.
Qed.
End Emits_functions.

(** The first steps of [child] on at least two arguments. *)
Ltac child_start :=
  unfold child;
  match goal with
  | |- context [(length (?a :: ?b :: ?r) <? 2)%nat] =>
      change ((length (a :: b :: r) <? 2)%nat) with false
  end;
  cbv beta iota;
  match goal with
  | |- context [bind (ret tt) ?k ?env ?t] =>
      change (bind (ret tt) k env t) with (k tt env t)
  end;
  cbv beta; cbn [nth skipn].

(** [emits P m] for the functions of the program: the lemma of each
    function is tried before the function is opened, and [side] checks the
    events against [P]. *)
Ltac emits_prog side :=
  repeat first
    [ apply emits_ret
    | apply emits_Exit
    | apply emits_handle; solve [side]
    | apply emits_getCmdPath; solve [side]
    | apply emits_validateRootfs; solve [side]
    | apply emits_ChrootIsolator; solve [side]
    | apply emits_PivotRootIsolator; [solve [side] | intros [] ?; solve [side]]
    | apply emits_Run; solve [side]
    | apply emits_Printf; solve [side]
    | apply emits_Println; solve [side]
    | apply emits_sys; solve [side]
    | apply emits_Wait; solve [side]
    | apply emits_bind; [|intro]
    | match goal with
      | |- emits _ (match ?x with _ => _ end) => destruct x
      | |- emits _ (if ?b then _ else _) => destruct b
      end ].

Lemma emits_any_child args : emits any_event (child args).
Proof. unfold child, mountProc. emits_prog ltac:(easy). Qed.

Lemma emits_mount_is_proc_child args : emits mount_is_proc (child args).
Proof. unfold child, mountProc. emits_prog ltac:(easy). Qed.

(** ** The Init role: isolation, fallback and mount *)

(** C8. Whenever the Init role mounts the process-information file system,
    the source, the target and the type are all ["proc"], the flags are 0
    and the options are empty: [mountProc] makes exactly that call, and
    every mount event of [child], in every environment and on every
    argument list, has these arguments. *)
Theorem mount_proc_contract :
  forall args env t,
    procFS = "proc" /\
    (let c := syscall_Mount "proc" "proc" "proc" 0 "" in
     mountProc env t = (Ret (env_err env t c), t ++ [Sys c (env_err env t c)])) /\
    exists l, snd (child args env t) = t ++ l /\ Forall mount_is_proc l.
Proof.
  intros args env t. split; [reflexivity|]. split; [reflexivity|].
  apply emits_mount_is_proc_child.
Qed.

(** [child] after the Primary strategy has returned a failure. *)
Lemma child_after_failed_primary env rootfs cmd rest t t1 t2 e :
  validateRootfs rootfs env t = (Ret None, t1) ->
  PivotRootIsolator_Isolate rootfs env
    (t1 ++ [Print (resolution_message cmd)]) = (Ret (Some e), t2) ->
  exists l,
    snd (child (rootfs :: cmd :: rest) env t) =
      t2 ++ Print (fallback_warning e)
         :: Sys (syscall_Chroot rootfs)
                (env_err env (t2 ++ [Print (fallback_warning e)])
                         (syscall_Chroot rootfs))
         :: l.
Proof.
  intros Hval Hpiv.
  child_start.
  rewrite (bind_ret _ _ _ _ _ _ Hval). cbn [handle].
  change (bind (ret tt) ?k env t1) with (k tt env t1). cbv beta.
  rewrite (bind_ret _ _ _ _ _ _ (getCmdPath_eq cmd env t1)).
  rewrite (bind_ret _ _ _ _ _ _ Hpiv).
  rewrite !bind_assoc, bind_Printf.
  unfold ChrootIsolator_Isolate at 1. rewrite !bind_assoc, bind_sys.
  match goal with
  | |- context [snd (?m env ?h)] =>
      assert (Hrest : emits any_event m)
        by (unfold mountProc; emits_prog ltac:(easy));
      destruct (Hrest env h) as (l & -> & _)
  end.
  exists l. now rewrite <- !app_assoc.
Qed.

(** C1. Whenever the Primary strategy returns a failure [e] (whatever the
    root path, the environment, and the step that failed), [child] prints
    the warning, which contains [e], and the next thing it does is the
    [chroot] call of the Legacy strategy; the process has not exited. *)
Theorem fallback_is_unconditional :
  forall env rootfs cmd rest t t1 t2 e,
    validateRootfs rootfs env t = (Ret None, t1) ->
    PivotRootIsolator_Isolate rootfs env
      (t1 ++ [Print (resolution_message cmd)]) = (Ret (Some e), t2) ->
    (exists pre post, fallback_warning e = pre +:+ e +:+ post) /\
    exists err l,
      snd (child (rootfs :: cmd :: rest) env t) =
        t2 ++ Print (fallback_warning e)
           :: Sys (syscall_Chroot rootfs) err :: l.
Proof.
  intros env rootfs cmd rest t t1 t2 e Hval Hpiv. split.
  - exists "pivot_root failed: ", (LF +:+ "Falling back to chroot..." +:+ LF).
    reflexivity.
  - destruct (child_after_failed_primary env rootfs cmd rest t t1 t2 e Hval Hpiv)
      as (l & E).
    eauto.
Qed.

Lemma emits_run {A} P (m : M A) env t o t' :
  emits P m -> m env t = (o, t') -> exists l, t' = t ++ l /\ Forall P l.
Proof. intros Hm E. destruct (Hm env t) as (l & El & F). rewrite E in El. eauto. Qed.

(** C2. Whenever the Legacy strategy fails after the Primary strategy has
    failed, [child] prints the failure and exits with code 1, and no event
    of the whole run is a mount or the start of (or the wait for) the target
    command. *)
Theorem legacy_failure_is_fatal :
  forall env rootfs cmd rest t t1 t2 t3 e e2,
    validateRootfs rootfs env t = (Ret None, t1) ->
    PivotRootIsolator_Isolate rootfs env
      (t1 ++ [Print (resolution_message cmd)]) = (Ret (Some e), t2) ->
    ChrootIsolator_Isolate rootfs env
      (t2 ++ [Print (fallback_warning e)]) = (Ret (Some e2), t3) ->
    child (rootfs :: cmd :: rest) env t =
      (Exit 1, t3 ++ [Print (LF +:+ e2 +:+ LF)]) /\
    exit_code (fst (child (rootfs :: cmd :: rest) env t)) <> 0 /\
    exists l,
      snd (child (rootfs :: cmd :: rest) env t) = t ++ l /\
      Forall (fun ev => is_mount ev = false /\ is_launch ev = false) l.
Proof.
  intros env rootfs cmd rest t t1 t2 t3 e e2 Hval Hpiv Hch.
  assert (E : child (rootfs :: cmd :: rest) env t =
              (Exit 1, t3 ++ [Print (LF +:+ e2 +:+ LF)])).
  { child_start.
    rewrite (bind_ret _ _ _ _ _ _ Hval). cbn [handle].
    change (bind (ret tt) ?k env t1) with (k tt env t1). cbv beta.
    rewrite (bind_ret _ _ _ _ _ _ (getCmdPath_eq cmd env t1)).
    rewrite (bind_ret _ _ _ _ _ _ Hpiv).
    rewrite bind_assoc, bind_Printf, bind_assoc.
    rewrite (bind_ret _ _ _ _ _ _ Hch). reflexivity. }
  rewrite E. split; [reflexivity|]. split; [discriminate|]. cbn [snd].
  destruct (emits_run no_mount_no_launch _ _ _ _ _
              ltac:(apply emits_validateRootfs; easy) Hval) as (l1 & -> & F1).
  destruct (emits_run no_mount_no_launch _ _ _ _ _
              ltac:(apply emits_PivotRootIsolator; [easy | intros [] ?; easy]) Hpiv)
    as (l2 & -> & F2).
  destruct (emits_run no_mount_no_launch _ _ _ _ _
              ltac:(apply emits_ChrootIsolator; easy) Hch) as (l3 & -> & F3).
  eexists. rewrite <- !app_assoc. split; [reflexivity|].
  repeat (apply Forall_app; split); auto; repeat constructor.
Qed.

(** C9. In the Primary strategy, once the directory is made and
    [pivot_root] and the change of directory to [/] have succeeded, the
    strategy returns success whatever the two cleanup calls return: a
    failed unmount or a failed removal only adds a warning to the output,
    and no call is made to undo the root swap. *)
Theorem cleanup_is_best_effort :
  forall env rootfs t absNewRoot t1 t2 t3 t4,
    filepath_Abs rootfs env t = (Ret (absNewRoot, None), t1) ->
    sys (os_MkdirAll (Join [absNewRoot; oldRootDir]) mode_0700) env t1
      = (Ret None, t2) ->
    sys (syscall_PivotRoot absNewRoot (Join [absNewRoot; oldRootDir])) env t2
      = (Ret None, t3) ->
    sys (syscall_Chdir "/") env t3 = (Ret None, t4) ->
    let unmount := syscall_Unmount "/.old_root" MNT_DETACH in
    let remove := os_Remove "/.old_root" in
    let eu := env_err env t4 unmount in
    let t5 := t4 ++ Sys unmount eu
                 :: cleanup_log "Warning: unmounting old root failed: " eu in
    let er := env_err env t5 remove in
    PivotRootIsolator_Isolate rootfs env t =
      (Ret None,
       t5 ++ Sys remove er
          :: cleanup_log "Warning: removing old root directory failed: " er
          ++ [Print ("Successfully using pivot_root" +:+ LF)]).
Proof.
  intros env rootfs t absNewRoot t1 t2 t3 t4 Habs Hmk Hpiv Hcd.
  intros unmount remove eu t5 er.
  unfold PivotRootIsolator_Isolate.
  rewrite (bind_ret _ _ _ _ _ _ Habs). cbv beta iota.
  rewrite (bind_ret _ _ _ _ _ _ Hmk). cbv beta iota.
  rewrite (bind_ret _ _ _ _ _ _ Hpiv). cbv beta iota.
  rewrite (bind_ret _ _ _ _ _ _ Hcd). cbv beta iota.
  rewrite bind_sys.
  change (syscall_Unmount ("/" +:+ oldRootDir) MNT_DETACH) with unmount.
  fold eu.
  assert (E5 : forall (k : unit -> M (option string)),
             bind (match eu with
                   | Some e => fmt_Printf ("Warning: unmounting old root failed: " +:+ e +:+ LF)
                   | None => ret tt
                   end) k env (t4 ++ [Sys unmount eu]) = k tt env t5).
  { intros k. subst t5. destruct eu as [e|]; cbn [cleanup_log].
    - rewrite bind_Printf. now rewrite <- app_assoc.
    - reflexivity. }
  rewrite E5, bind_sys.
  change (os_Remove ("/" +:+ oldRootDir)) with remove. fold er.
  destruct er as [e|]; cbn [cleanup_log].
  - rewrite bind_Printf. unfold fmt_Println. rewrite bind_Printf.
    unfold ret. now rewrite <- !app_assoc.
  - change (bind (ret tt) ?k env ?h) with (k tt env h). cbv beta.
    unfold fmt_Println. rewrite bind_Printf.
    unfold ret. now rewrite <- !app_assoc.
Qed.

(** ** The file system along a history *)

(** Both strategies come back to [child] with [nil] or an error; neither
    ends the process. *)
Lemma isolators_return rootfs env t :
  (exists err t', PivotRootIsolator_Isolate rootfs env t = (Ret err, t')) /\
  (exists err t', ChrootIsolator_Isolate rootfs env t = (Ret err, t')).
Proof.
  split.
  - unfold PivotRootIsolator_Isolate, filepath_Abs, bind, Getwd, sys, ret,
      fmt_Println, fmt_Printf.
    repeat match goal with
           | |- context [if ?b then _ else _] => destruct b
           | |- context [match env_err ?e ?h ?c with _ => _ end] =>
               destruct (env_err e h c)
           end; eauto.
  - unfold ChrootIsolator_Isolate, bind, sys, ret, fmt_Println, fmt_Printf.
    repeat match goal with
           | |- context [match env_err ?e ?h ?c with _ => _ end] =>
               destruct (env_err e h c)
           end; eauto.
Qed.

(** When the Primary strategy succeeds with its cleanup, the new root is
    current and the holding directory is gone. *)
Example primary_success_leaves_nothing :
  let fs := fs_after fs0 (snd (PivotRootIsolator_Isolate "/tmp/rootfs" env_ok [])) in
  fst (PivotRootIsolator_Isolate "/tmp/rootfs" env_ok []) = Ret None /\
  fs_root fs = "/tmp/rootfs" /\
  bool_decide ("/tmp/rootfs/.old_root" ∈ fs_entries fs) = false /\
  bool_decide ("/tmp/rootfs" ∈ fs_entries fs) = true.
Proof. vm_compute. repeat split. Qed.

Lemma fs_after_app fs t l :
  fs_after fs (t ++ l) = fs_after (fs_after fs t) l.
Proof. apply fold_left_app. Qed.

Lemma filepath_Abs_inv path env t a t1 :
  filepath_Abs path env t = (Ret (a, None), t1) ->
  t1 = t \/ t1 = t ++ [Sys os_Getwd None].
Proof.
  unfold filepath_Abs. destruct (IsAbs path).
  - unfold ret. intros H. inversion H. now left.
  - unfold bind, Getwd, ret. destruct (env_err env t os_Getwd); intros H.
    + discriminate.
    + inversion H. now right.
Qed.

(** C10. If the Primary strategy has made the holding directory
    [.old_root] (with mode 0700) inside the new root and then fails at
    [pivot_root], nothing removes the directory: when the [chroot] call of
    the Legacy strategy is made, the file system is the one [child] started
    with plus that directory, the directory exists, and no removal has been
    attempted. *)
Theorem holding_directory_is_left_behind :
  forall env rootfs cmd rest t t0 absNewRoot t1 t2 e,
    validateRootfs rootfs env t = (Ret None, t0) ->
    filepath_Abs rootfs env (t0 ++ [Print (resolution_message cmd)])
      = (Ret (absNewRoot, None), t1) ->
    sys (os_MkdirAll (Join [absNewRoot; ".old_root"]) mode_0700) env t1
      = (Ret None, t2) ->
    env_err env t2
      (syscall_PivotRoot absNewRoot (Join [absNewRoot; ".old_root"])) = Some e ->
    let oldRoot := Join [absNewRoot; ".old_root"] in
    exists l err post,
      snd (child (rootfs :: cmd :: rest) env t)
        = (t ++ l) ++ Sys (syscall_Chroot rootfs) err :: post /\
      In (Sys (os_MkdirAll oldRoot mode_0700) None) l /\
      Forall (fun ev => is_remove ev = false) l /\
      fs_after (env_fs env) (t ++ l)
        = apply_call (fs_after (env_fs env) t) (os_MkdirAll oldRoot mode_0700) /\
      exists_in (fs_after (env_fs env) (t ++ l)) oldRoot = true.
Proof.
  intros env rootfs cmd rest t t0 absNewRoot t1 t2 e Hval Habs Hmk Hpiv oldRoot.
  fold oldRoot in Hmk, Hpiv.
  assert (Hprim : PivotRootIsolator_Isolate rootfs env
                    (t0 ++ [Print (resolution_message cmd)])
                  = (Ret (Some ("pivot_root failed: " +:+ e)),
                     t2 ++ [Sys (syscall_PivotRoot absNewRoot oldRoot) (Some e)])).
  { unfold PivotRootIsolator_Isolate.
    rewrite (bind_ret _ _ _ _ _ _ Habs). cbv beta iota.
    change (Join [absNewRoot; oldRootDir]) with oldRoot.
    rewrite (bind_ret _ _ _ _ _ _ Hmk). cbv beta iota.
    rewrite bind_sys, Hpiv. reflexivity. }
  destruct (child_after_failed_primary env rootfs cmd rest _ _ _ _ Hval Hprim)
    as (post & Hchild).
  pose proof (validateRootfs_ok _ _ _ _ Hval) as ->.
  assert (Ht2 : t2 = t1 ++ [Sys (os_MkdirAll oldRoot mode_0700) None]).
  { unfold sys in Hmk. inversion Hmk as [[Herr Ht]]. now rewrite Herr. }
  subst t2.
  assert (Hfs : forall fs,
             exists_in (apply_call fs (os_MkdirAll oldRoot mode_0700)) oldRoot = true).
  { intros fs. unfold exists_in, apply_call, resolve. cbn [fs_root fs_cwd fs_entries].
    apply bool_decide_eq_true. set_solver. }
  destruct (filepath_Abs_inv _ _ _ _ _ Habs) as [-> | ->].
  - exists [Sys (os_Stat rootfs) None; Print (resolution_message cmd);
            Sys (os_MkdirAll oldRoot mode_0700) None;
            Sys (syscall_PivotRoot absNewRoot oldRoot) (Some e);
            Print (fallback_warning ("pivot_root failed: " +:+ e))].
    eexists _, post. split; [|split; [|split; [|split]]].
    + rewrite Hchild. now rewrite <- !app_assoc.
    + cbn. auto.
    + repeat constructor.
    + now rewrite fs_after_app.
    + rewrite fs_after_app. apply Hfs.
  - exists [Sys (os_Stat rootfs) None; Print (resolution_message cmd);
            Sys os_Getwd None;
            Sys (os_MkdirAll oldRoot mode_0700) None;
            Sys (syscall_PivotRoot absNewRoot oldRoot) (Some e);
            Print (fallback_warning ("pivot_root failed: " +:+ e))].
    eexists _, post. split; [|split; [|split; [|split]]].
    + rewrite Hchild. now rewrite <- !app_assoc.
    + cbn. auto.
    + repeat constructor.
    + now rewrite fs_after_app.
    + rewrite fs_after_app. apply Hfs.
Qed.

(** ** Exit codes *)

Section Exits.
Context (Q : Z -> Prop).

Lemma exits_returns {A} (m : M A) :
  (forall env t, exists a, fst (m env t) = Ret a) -> exits_with Q m.
Proof. intros H env t. destruct (H env t) as (a & ->). exact I. Qed.

Lemma exits_ret {A} (a : A) : exits_with Q (ret a).
Proof. intros env t. exact I. Qed.

Lemma exits_Exit {A} code : Q code -> exits_with Q (@os_Exit A code).
Proof. intros H env t. exact H. Qed.

Lemma exits_bind {A B} (m : M A) (k : A -> M B) :
  exits_with Q m -> (forall a, exits_with Q (k a)) -> exits_with Q (bind m k).
Proof.
  intros Hm Hk env t. unfold bind. specialize (Hm env t).
  destruct (m env t) as [[a|code] t1]; [apply Hk | exact Hm].
Qed.

Lemma exits_Printf text : exits_with Q (fmt_Printf text).
Proof. intros env t. exact I. Qed.

Lemma exits_sys c : exits_with Q (sys c).
Proof. intros env t. exact I. Qed.

Lemma exits_Stat name : exits_with Q (Stat name).
Proof. intros env t. exact I. Qed.

Lemma exits_Getwd : exits_with Q Getwd.
Proof. intros env t. exact I. Qed.

Lemma exits_Wait c : exits_with Q (Wait c).
Proof. intros env t. exact I. Qed.

Lemma exits_handle err : Q 1 -> exits_with Q (handle err).
Proof. intros H env t. destruct err; [exact H | exact I]. Qed.
End Exits.

Ltac exits_prog :=
  repeat first
    [ apply exits_ret
    | apply exits_Exit; reflexivity
    | apply exits_handle; reflexivity
    | apply exits_Printf
    | apply exits_sys
    | apply exits_Stat
    | apply exits_Getwd
    | apply exits_Wait
    | apply exits_bind; [|intro]
    | match goal with
      | |- exits_with _ (match ?x with _ => _ end) => destruct x
      | |- exits_with _ (if ?b then _ else _) => destruct b
      end ].

(** The only exit code the program itself produces is 1; it ends with 0
    when [main] returns. *)
Lemma child_exits_1 args : exits_with (eq 1) (child args).
Proof.
  unfold child, validateRootfs, getCmdPath, PivotRootIsolator_Isolate,
    ChrootIsolator_Isolate, filepath_Abs, mountProc, Run, fmt_Println.
  exits_prog.
Qed.

Lemma run_exits_1 args : exits_with (eq 1) (run args).
Proof. unfold run, Run, fmt_Println. exits_prog. Qed.

Lemma main_exits_1 os_Args : exits_with (eq 1) (main os_Args).
Proof.
  unfold main. repeat match goal with |- exits_with _ (if ?b then _ else _) => destruct b end;
    auto using child_exits_1, run_exits_1, exits_Printf.
  all: apply exits_Printf.
Qed.

Lemma main_exit_code os_Args env t :
  exit_code (fst (main os_Args env t)) = 0 \/
  exit_code (fst (main os_Args env t)) = 1.
Proof.
  pose proof (main_exits_1 os_Args env t) as H.
  destruct (fst (main os_Args env t)); simpl; auto.
Qed.

(** ** The Launcher *)

Lemma run_valid_args args env t :
  (2 <= length args)%nat ->
  run args env t = bind (Run (run_cmd args)) handle env t.
Proof.
  intros H. unfold run.
  destruct (Nat.ltb_spec (length args) 2) as [Hlt|_]; [lia|].
  reflexivity.
Qed.

Lemma Run_started c env t :
  env_err env t (cmd_Start c) = None ->
  Run c env t = Wait c env (t ++ [Sys (cmd_Start c) None]).
Proof. intros H. unfold Run. rewrite bind_sys, H. reflexivity. Qed.

(** C3, counterexample: the spawned process exits with 2, the Launcher
    exits with 1. *)
Lemma launcher_exit_code_counterexample :
  env_status env_init_exits_2
    [Sys (cmd_Start (run_cmd ["/tmp/rootfs"; "ls"])) None]
    (run_cmd ["/tmp/rootfs"; "ls"]) = Exited 2 /\
  run ["/tmp/rootfs"; "ls"] env_init_exits_2 [] =
    (Exit 1,
     [Sys (cmd_Start (run_cmd ["/tmp/rootfs"; "ls"])) None;
      Sys (cmd_Wait (run_cmd ["/tmp/rootfs"; "ls"])) (Some "exit status 2");
      Print (LF +:+ "exit status 2" +:+ LF)]) /\
  exit_code (fst (run ["/tmp/rootfs"; "ls"] env_init_exits_2 [])) <> 2.
Proof. vm_compute. repeat split; discriminate. Qed.

Lemma run_exit_code env args t code :
  (2 <= length args)%nat ->
  env_err env t (cmd_Start (run_cmd args)) = None ->
  env_err env (t ++ [Sys (cmd_Start (run_cmd args)) None])
          (cmd_Wait (run_cmd args)) = None ->
  env_status env (t ++ [Sys (cmd_Start (run_cmd args)) None]) (run_cmd args)
    = Exited code ->
  exit_code (fst (run args env t)) = (if code =? 0 then 0 else 1).
Proof.
  intros Hlen Hstart Hwait Hst.
  rewrite (run_valid_args _ _ _ Hlen). unfold bind.
  rewrite (Run_started _ _ _ Hstart). unfold Wait. rewrite Hwait, Hst.
  destruct code; reflexivity.
Qed.

(** C3, as the code has it. On valid arguments, when the Init process is
    started and waited for, the Launcher exits with 0 if Init exited with 0
    and with the fixed code 1 if Init exited with any other code; so the two
    codes are equal exactly when Init's is 0 or 1. *)
Theorem launcher_exit_code :
  forall env args t code,
    (2 <= length args)%nat ->
    env_err env t (cmd_Start (run_cmd args)) = None ->
    env_err env (t ++ [Sys (cmd_Start (run_cmd args)) None])
            (cmd_Wait (run_cmd args)) = None ->
    env_status env (t ++ [Sys (cmd_Start (run_cmd args)) None]) (run_cmd args)
      = Exited code ->
    exit_code (fst (run args env t)) = (if code =? 0 then 0 else 1) /\
    (exit_code (fst (run args env t)) = code <-> code = 0 \/ code = 1).
Proof.
  intros env args t code Hlen Hstart Hwait Hst.
  rewrite (run_exit_code env args t code Hlen Hstart Hwait Hst).
  split; [reflexivity|].
  destruct (Z.eqb_spec code 0); lia.
Qed.

(** In the whole system the spawned process is this program in its Init
    role, whose exit code is 0 or 1: the Launcher then exits with the code
    of Init. *)
Lemma launch_codes_agree lenv ienv args :
  (2 <= length args)%nat ->
  (forall h c, env_err lenv h c = None) ->
  let '(lcode, icode, _) := launch lenv ienv args in lcode = icode.
Proof.
  intros Hlen Herr. unfold launch.
  destruct (main _ ienv []) as [iout itrace] eqn:Ei.
  destruct (run args _ []) as [lout ltrace] eqn:El.
  pose proof (main_exit_code (Path (run_cmd args) :: Args (run_cmd args)) ienv [])
    as Hcode.
  rewrite Ei in Hcode. cbn [fst] in Hcode.
  match type of El with run _ ?e _ = _ =>
    pose proof (run_exit_code e args [] (exit_code iout) Hlen
                  (Herr _ _) (Herr _ _) eq_refl) as E
  end.
  rewrite El in E. cbn [fst] in E. rewrite E.
  destruct Hcode as [-> | ->]; reflexivity.
Qed.

(** ** The launch of the target command *)

Lemma handle_inv_ret err env t u t' :
  handle err env t = (Ret u, t') -> err = None /\ t' = t.
Proof.
  destruct err as [e|]; cbn; intros H.
  - discriminate.
  - inversion H. auto.
Qed.

(** [Run] always comes back to its caller, after the start of a process
    and, when that worked, the wait for its end. *)
Lemma Run_returns c env t :
  (exists e, Run c env t = (Ret (Some e), t ++ [Sys (cmd_Start c) (Some e)])) \/
  (exists err, Run c env t =
     (Ret err, t ++ [Sys (cmd_Start c) None; Sys (cmd_Wait c) err])).
Proof.
  unfold Run. rewrite bind_sys.
  destruct (env_err env t (cmd_Start c)) as [e|].
  - left. exists e. reflexivity.
  - right. eexists. unfold Wait. now rewrite <- app_assoc.
Qed.

Lemma Run_inv_ok c env t t' :
  Run c env t = (Ret None, t') ->
  t' = t ++ [Sys (cmd_Start c) None; Sys (cmd_Wait c) None].
Proof.
  destruct (Run_returns c env t) as [(e & E) | (err & E)]; rewrite E; intros H.
  - discriminate.
  - inversion H. reflexivity.
Qed.

Ltac inv_bind H a t1 Ha :=
  apply bind_inv_ret in H; destruct H as (a & t1 & Ha & H).

(** C4, counterexample: on a host where every call succeeds, the launch
    step starts [/bin/true] as a process of its own, waits for it, and
    comes back: [child] returns after it. *)
Lemma launch_counterexample :
  child ["/tmp/rootfs"; "/bin/true"] env_ok [] =
    (Ret tt,
     [Sys (os_Stat "/tmp/rootfs") None;
      Print (getCmdPath_warning "/bin/true");
      Sys (os_MkdirAll "/tmp/rootfs/.old_root" mode_0700) None;
      Sys (syscall_PivotRoot "/tmp/rootfs" "/tmp/rootfs/.old_root") None;
      Sys (syscall_Chdir "/") None;
      Sys (syscall_Unmount "/.old_root" MNT_DETACH) None;
      Sys (os_Remove "/.old_root") None;
      Print ("Successfully using pivot_root" +:+ LF);
      Sys (syscall_Mount "proc" "proc" "proc" 0 "") None;
      Sys (cmd_Start (mkCmd "/bin/true" [] true 0)) None;
      Sys (cmd_Wait (mkCmd "/bin/true" [] true 0)) None]).
Proof. vm_compute. reflexivity. Qed.

(** C4, as the code has it. The final step of the Init role runs the
    resolved target command as a separate process and waits for it
    ([exec.Cmd.Run]); the step comes back to [child].  Whenever [child]
    returns, the last two events are the start of that process and the wait
    for it, both without error, and the Init process then ends with exit
    code 0. *)
Theorem launch_step_starts_and_waits :
  forall args env t t',
    child args env t = (Ret tt, t') ->
    exists rootfs cmd rest l,
      args = rootfs :: cmd :: rest /\
      Run (exec_Command (resolved cmd) rest) env l = (Ret None, t') /\
      t' = l ++ [Sys (cmd_Start (exec_Command (resolved cmd) rest)) None;
                 Sys (cmd_Wait (exec_Command (resolved cmd) rest)) None] /\
      exit_code (fst (child args env t)) = 0.
Proof.
  intros args env t t' H.
  assert (Hcode : exit_code (fst (child args env t)) = 0) by now rewrite H.
  destruct args as [|rootfs [|cmd rest]]; [discriminate H | discriminate H |].
  exists rootfs, cmd, rest.
  revert H. child_start. change (drop 0 rest) with rest. intros H.
  inv_bind H a1 t1 H1. inv_bind H a2 t2 H2. inv_bind H a3 t3 H3.
  rewrite getCmdPath_eq in H3. inversion H3; subst a3 t3; clear H3.
  inv_bind H a4 t4 H4. inv_bind H a5 t5 H5. inv_bind H a6 t6 H6.
  inv_bind H a7 t7 H7. inv_bind H a8 t8 H8.
  apply handle_inv_ret in H as [-> ->].
  exists t7. split; [reflexivity|]. split; [exact H8|].
  split; [exact (Run_inv_ok _ _ _ _ H8) | exact Hcode].
Qed.

(** ** Validation of the root path *)

Lemma run_first_event args env t :
  (2 <= length args)%nat ->
  exists l,
    snd (run args env t) =
      t ++ Sys (cmd_Start (run_cmd args)) (env_err env t (cmd_Start (run_cmd args)))
        :: l.
Proof.
  intros Hlen. rewrite (run_valid_args _ _ _ Hlen).
  unfold Run. rewrite bind_assoc, bind_sys.
  match goal with
  | |- context [snd (?m env ?h)] =>
      assert (Hrest : emits any_event m) by (emits_prog ltac:(easy));
      destruct (Hrest env h) as (l & -> & _)
  end.
  exists l. now rewrite <- app_assoc.
Qed.

(** C5, counterexample: [shp run /tmp/does-not-exist /bin/true] on a host
    where [stat] fails on that path.  The first thing that happens is the
    start of the Init process in new namespaces; the validation takes place
    in that process, afterwards. *)
Lemma validation_order_counterexample :
  env_err env_missing_root [] (os_Stat "/tmp/does-not-exist")
    = Some (stat_error "/tmp/does-not-exist") /\
  creates_namespaces (Sys (cmd_Start (run_cmd missing_root_args)) None) = true /\
  launch env_missing_root env_missing_root missing_root_args =
    (1, 1,
     [(Launcher, Sys (cmd_Start (run_cmd missing_root_args)) None);
      (Init, Sys (os_Stat "/tmp/does-not-exist")
                 (Some (stat_error "/tmp/does-not-exist")));
      (Init, Print (LF +:+ validation_error "/tmp/does-not-exist" +:+ LF));
      (Launcher, Sys (cmd_Wait (run_cmd missing_root_args)) (Some "exit status 1"));
      (Launcher, Print (LF +:+ "exit status 1" +:+ LF))]).
Proof. vm_compute. repeat split. Qed.

(** C5, as the code has it. In the Init role a root path on which
    [os.Stat] fails, with whatever error [e] (the path does not resolve to
    an existing entry: it is empty, a component is missing or is not a
    directory, ...), is rejected by the validation with a fatal error (exit
    code 1, message [rootfs path does not exist: <rootfs>: <e>]) before
    anything else is attempted: the failed [stat] and the message are the
    only events, so no isolation call, no mount and no launch takes place.
    The Launcher does not validate the root path: its first event is the
    start of the Init process in new namespaces, which therefore comes
    before the validation. *)
Theorem validation_precedes_isolation :
  forall env rootfs cmd rest t e,
    env_err env t (os_Stat rootfs) = Some e ->
    child (rootfs :: cmd :: rest) env t =
      (Exit 1,
       t ++ [Sys (os_Stat rootfs) (Some e);
             Print (LF +:+ ("rootfs path does not exist: " +:+ rootfs +:+ ": " +:+ e)
                       +:+ LF)]) /\
    Forall (fun ev => is_isolation ev = false /\ is_mount ev = false /\
                      is_launch ev = false)
           [Sys (os_Stat rootfs) (Some e);
            Print (LF +:+ ("rootfs path does not exist: " +:+ rootfs +:+ ": " +:+ e)
                      +:+ LF)] /\
    exists err l,
      snd (run (rootfs :: cmd :: rest) env t) =
        t ++ Sys (cmd_Start (run_cmd (rootfs :: cmd :: rest))) err :: l /\
      creates_namespaces
        (Sys (cmd_Start (run_cmd (rootfs :: cmd :: rest))) err) = true.
Proof.
  intros env rootfs cmd rest t e Hstat. split; [|split].
  - child_start. unfold validateRootfs. rewrite bind_assoc.
    unfold bind at 1. unfold Stat. rewrite Hstat.
    cbn. now rewrite <- app_assoc.
  - repeat constructor.
  - destruct (run_first_event (rootfs :: cmd :: rest) env t) as (l & E).
    { cbn. lia. }
    eauto.
Qed.

(** The empty root path and a root path through a regular file are rejected
    in the same way, each with the error that [stat] gave. *)
Example validation_of_bad_roots :
  child [""; "ls"] env_bad_roots [] =
    (Exit 1,
     [Sys (os_Stat "") (Some "stat : no such file or directory");
      Print (LF +:+ "rootfs path does not exist: : stat : no such file or directory"
                +:+ LF)]) /\
  child ["/etc/hostname/rootfs"; "ls"] env_bad_roots [] =
    (Exit 1,
     [Sys (os_Stat "/etc/hostname/rootfs")
          (Some "stat /etc/hostname/rootfs: not a directory");
      Print (LF +:+ ("rootfs path does not exist: /etc/hostname/rootfs: "
                     +:+ "stat /etc/hostname/rootfs: not a directory") +:+ LF)]).
Proof. vm_compute. split; reflexivity. Qed.

(** ** Resolution of the command *)

(** C6, counterexample: the command [..] has no separator and is resolved
    to [/], not to [/bin/..]. *)
Lemma getCmdPath_counterexample :
  contains "/" ".." = false /\
  getCmdPath ".." env_ok [] = (Ret "/", [Print (getCmdPath_info "..")]) /\
  "/" <> "/bin/" +:+ "..".
Proof. vm_compute. repeat split. discriminate. Qed.

(** C6, as the code has it. A command with a separator is passed through
    unchanged, with the warning; a command without a separator, other than
    the empty string, [.] and [..], is rewritten to [/bin/<name>].  In
    [child] this happens right after the validation of the root path, before
    any call of an isolation strategy. *)
Theorem getCmdPath_resolution :
  forall cmdPath env t rootfs rest,
    cmdPath <> "" -> cmdPath <> "." -> cmdPath <> ".." ->
    getCmdPath cmdPath env t =
      (if contains "/" cmdPath
       then (Ret cmdPath, t ++ [Print (getCmdPath_warning cmdPath)])
       else (Ret ("/bin/" +:+ cmdPath), t ++ [Print (getCmdPath_info cmdPath)])) /\
    (validateRootfs rootfs env t = (Ret None, t ++ [Sys (os_Stat rootfs) None]) ->
     exists l,
       snd (child (rootfs :: cmdPath :: rest) env t) =
         t ++ Sys (os_Stat rootfs) None
           :: Print (resolution_message cmdPath) :: l).
Proof.
  intros cmdPath env t rootfs rest H0 H1 H2. split.
  - rewrite getCmdPath_eq. unfold resolved, resolution_message.
    destruct (contains "/" cmdPath) eqn:Hsep; [reflexivity|].
    now rewrite (Join_bin cmdPath Hsep H0 H1 H2).
  - intros Hval. child_start.
    rewrite (bind_ret _ _ _ _ _ _ Hval). cbn [handle].
    change (bind (ret tt) ?k env ?h) with (k tt env h). cbv beta.
    rewrite (bind_ret _ _ _ _ _ _ (getCmdPath_eq cmdPath env _)).
    match goal with
    | |- context [snd (?m env ?h)] =>
        assert (Hrest : emits any_event m)
          by (unfold mountProc; emits_prog ltac:(easy));
        destruct (Hrest env h) as (l & -> & _)
    end.
    exists l. now rewrite <- !app_assoc.
Qed.

(** ** Usage *)

Lemma main_usage os_Args env t :
  (length os_Args < 2)%nat \/
  (nth 1 os_Args "" <> "run" /\ nth 1 os_Args "" <> "child") ->
  main os_Args env t = (Ret tt, t ++ [Print (usage_run +:+ LF)]).
Proof.
  intros H. unfold main.
  destruct (Nat.ltb_spec (length os_Args) 2) as [Hlt|Hge]; [reflexivity|].
  destruct H as [H | [Hr Hc]]; [lia|].
  apply String.eqb_neq in Hr, Hc. now rewrite Hr, Hc.
Qed.

(** C7. An invocation without a subcommand, or with a first argument that
    is neither [run] nor [child], prints the usage text; [main] then
    returns, so the exit code is 0 (whereas the usage errors of [run] and
    [child] end with [os.Exit(1)]). *)
Theorem usage_exit_code :
  main ["shp"; "frobnicate"] env_ok [] = (Ret tt, [Print (usage_run +:+ LF)]) /\
  exit_code (fst (main ["shp"; "frobnicate"] env_ok [])) = 0 /\
  main ["shp"] env_ok [] = (Ret tt, [Print (usage_run +:+ LF)]) /\
  exit_code (fst (main ["shp"] env_ok [])) = 0 /\
  exit_code (fst (main ["shp"; "run"] env_ok [])) = 1 /\
  exit_code (fst (main ["shp"; "child"; "/tmp/rootfs"] env_ok [])) = 1.
Proof. vm_compute. repeat split. Qed.

(** ** The theorems on the example hosts *)

Lemma fallback_is_unconditional_witness :
  (exists pre post,
     fallback_warning "pivot_root failed: invalid argument"
     = pre +:+ "pivot_root failed: invalid argument" +:+ post) /\
  exists err l,
    snd (child ["/tmp/rootfs"; "ls"; "-l"] env_same_fs []) =
      (ex_stat ++ [Print (getCmdPath_info "ls"); ex_mkdir;
                   ex_pivot (Some "invalid argument")])
      ++ Print (fallback_warning "pivot_root failed: invalid argument")
      :: Sys (syscall_Chroot "/tmp/rootfs") err :: l.
Proof.
  apply (fallback_is_unconditional env_same_fs "/tmp/rootfs" "ls" ["-l"] [] ex_stat);
    vm_compute; reflexivity.
Defined.

Lemma legacy_failure_is_fatal_witness :
  child ["/tmp/rootfs"; "ls"] env_unprivileged [] =
    (Exit 1,
     ((ex_stat ++ [Print (getCmdPath_info "ls"); ex_mkdir;
                   ex_pivot (Some "operation not permitted")])
      ++ [Print (fallback_warning "pivot_root failed: operation not permitted");
          Sys (syscall_Chroot "/tmp/rootfs") (Some "operation not permitted")])
     ++ [Print (LF +:+ "chroot failed: operation not permitted" +:+ LF)]) /\
  exit_code (fst (child ["/tmp/rootfs"; "ls"] env_unprivileged [])) <> 0 /\
  exists l,
    snd (child ["/tmp/rootfs"; "ls"] env_unprivileged []) = [] ++ l /\
    Forall (fun ev => is_mount ev = false /\ is_launch ev = false) l.
Proof.
  apply (legacy_failure_is_fatal env_unprivileged "/tmp/rootfs" "ls" [] [] ex_stat
           (ex_stat ++ [Print (getCmdPath_info "ls"); ex_mkdir;
                        ex_pivot (Some "operation not permitted")])
           _ "pivot_root failed: operation not permitted");
    vm_compute; reflexivity.
Defined.

Lemma cleanup_is_best_effort_witness :
  PivotRootIsolator_Isolate "/tmp/rootfs" env_cleanup_fails [] =
    (Ret None,
     ([ex_mkdir; ex_pivot None; Sys (syscall_Chdir "/") None]
      ++ Sys (syscall_Unmount "/.old_root" MNT_DETACH) (Some "invalid argument")
      :: cleanup_log "Warning: unmounting old root failed: " (Some "invalid argument"))
     ++ Sys (os_Remove "/.old_root")
            (Some "remove /.old_root: device or resource busy")
     :: cleanup_log "Warning: removing old root directory failed: "
                    (Some "remove /.old_root: device or resource busy")
     ++ [Print ("Successfully using pivot_root" +:+ LF)]).
Proof.
  apply (cleanup_is_best_effort env_cleanup_fails "/tmp/rootfs" [] "/tmp/rootfs"
           [] [ex_mkdir] [ex_mkdir; ex_pivot None]
           [ex_mkdir; ex_pivot None; Sys (syscall_Chdir "/") None]);
    vm_compute; reflexivity.
Defined.

Lemma holding_directory_is_left_behind_witness :
  exists l err post,
    snd (child ["/tmp/rootfs"; "ls"] env_same_fs [])
      = ([] ++ l) ++ Sys (syscall_Chroot "/tmp/rootfs") err :: post /\
    In (Sys (os_MkdirAll (Join ["/tmp/rootfs"; ".old_root"]) mode_0700) None) l /\
    Forall (fun ev => is_remove ev = false) l /\
    fs_after (env_fs env_same_fs) ([] ++ l)
      = apply_call (fs_after (env_fs env_same_fs) [])
                   (os_MkdirAll (Join ["/tmp/rootfs"; ".old_root"]) mode_0700) /\
    exists_in (fs_after (env_fs env_same_fs) ([] ++ l))
              (Join ["/tmp/rootfs"; ".old_root"]) = true.
Proof.
  apply (holding_directory_is_left_behind env_same_fs "/tmp/rootfs" "ls" [] []
           ex_stat "/tmp/rootfs"
           (ex_stat ++ [Print (resolution_message "ls")])
           (ex_stat ++ [Print (resolution_message "ls"); ex_mkdir])
           "invalid argument");
    vm_compute; reflexivity.
Defined.

Lemma launcher_exit_code_witness :
  exit_code (fst (run ["/tmp/rootfs"; "ls"] env_init_exits_2 []))
    = (if 2 =? 0 then 0 else 1) /\
  (exit_code (fst (run ["/tmp/rootfs"; "ls"] env_init_exits_2 [])) = 2
   <-> 2 = 0 \/ 2 = 1).
Proof.
  apply (launcher_exit_code env_init_exits_2 ["/tmp/rootfs"; "ls"] [] 2);
    [simpl; lia | reflexivity | reflexivity | reflexivity].
Defined.

Lemma launch_step_starts_and_waits_witness :
  exists rootfs cmd rest l,
    ["/tmp/rootfs"; "/bin/true"] = rootfs :: cmd :: rest /\
    Run (exec_Command (resolved cmd) rest) env_ok l
      = (Ret None, ex_isolated ++ [Sys (cmd_Start ex_true) None;
                                   Sys (cmd_Wait ex_true) None]) /\
    ex_isolated ++ [Sys (cmd_Start ex_true) None; Sys (cmd_Wait ex_true) None]
      = l ++ [Sys (cmd_Start (exec_Command (resolved cmd) rest)) None;
              Sys (cmd_Wait (exec_Command (resolved cmd) rest)) None] /\
    exit_code (fst (child ["/tmp/rootfs"; "/bin/true"] env_ok [])) = 0.
Proof.
  apply (launch_step_starts_and_waits ["/tmp/rootfs"; "/bin/true"] env_ok []).
  vm_compute. reflexivity.
Defined.

Lemma validation_precedes_isolation_witness :
  child ["/tmp/does-not-exist"; "/bin/true"] env_missing_root [] =
    (Exit 1,
     [] ++ [Sys (os_Stat "/tmp/does-not-exist")
                (Some (stat_error "/tmp/does-not-exist"));
            Print (LF +:+ ("rootfs path does not exist: " +:+ "/tmp/does-not-exist"
                           +:+ ": " +:+ stat_error "/tmp/does-not-exist") +:+ LF)]) /\
  Forall (fun ev => is_isolation ev = false /\ is_mount ev = false /\
                    is_launch ev = false)
         [Sys (os_Stat "/tmp/does-not-exist")
              (Some (stat_error "/tmp/does-not-exist"));
          Print (LF +:+ ("rootfs path does not exist: " +:+ "/tmp/does-not-exist"
                         +:+ ": " +:+ stat_error "/tmp/does-not-exist") +:+ LF)] /\
  exists err l,
    snd (run ["/tmp/does-not-exist"; "/bin/true"] env_missing_root []) =
      [] ++ Sys (cmd_Start (run_cmd ["/tmp/does-not-exist"; "/bin/true"])) err :: l /\
    creates_namespaces
      (Sys (cmd_Start (run_cmd ["/tmp/does-not-exist"; "/bin/true"])) err) = true.
Proof.
  apply (validation_precedes_isolation env_missing_root "/tmp/does-not-exist"
           "/bin/true" [] []).
  vm_compute. reflexivity.
Defined.

Lemma getCmdPath_resolution_witness :
  getCmdPath "ls" env_ok [] = (Ret "/bin/ls", [Print (getCmdPath_info "ls")]) /\
  getCmdPath "./run.sh" env_ok []
    = (Ret "./run.sh", [Print (getCmdPath_warning "./run.sh")]) /\
  exists l,
    snd (child ["/tmp/rootfs"; "ls"; "-l"] env_ok []) =
      [] ++ Sys (os_Stat "/tmp/rootfs") None
         :: Print (resolution_message "ls") :: l.
Proof.
  destruct (getCmdPath_resolution "ls" env_ok [] "/tmp/rootfs" ["-l"])
    as [E1 E2]; [discriminate | discriminate | discriminate |].
  destruct (getCmdPath_resolution "./run.sh" env_ok [] "/tmp/rootfs" [])
    as [E3 _]; [discriminate | discriminate | discriminate |].
  split; [exact E1|]. split; [exact E3|].
  apply E2. vm_compute. reflexivity.
Defined.


(** ** More about paths *)

Lemma append_cons c s1 s2 : String c s1 +:+ s2 = String c (s1 +:+ s2).
Proof. reflexivity. Qed.

Lemma append_assoc s1 s2 s3 : (s1 +:+ s2) +:+ s3 = s1 +:+ s2 +:+ s3.
Proof.
  induction s1 as [|c s1 IH]; [reflexivity|].
  rewrite !append_cons. now rewrite IH.
Qed.

(** Splitting distributes over a separator in the middle. *)
Lemma strings_Split_app sep s1 s2 :
  strings_Split sep (s1 +:+ String sep s2)
  = strings_Split sep s1 ++ strings_Split sep s2.
Proof.
  induction s1 as [|c s1 IH].
  - change ("" +:+ String sep s2) with (String sep s2).
    cbn [strings_Split]. now rewrite Ascii.eqb_refl.
  - rewrite append_cons. cbn [strings_Split].
    destruct (Ascii.eqb c sep).
    + now rewrite IH.
    + rewrite IH. pose proof (strings_Split_not_nil sep s1).
      destruct (strings_Split sep s1); [congruence | reflexivity].
Qed.

Lemma strings_Split_elems sep s :
  Forall (fun e => contains sep e = false) (strings_Split sep s).
Proof.
  induction s as [|c s IH]; cbn [strings_Split].
  - repeat constructor.
  - destruct (Ascii.eqb c sep) eqn:E.
    + constructor; [reflexivity | exact IH].
    + destruct (strings_Split sep s) as [|hd tl]; [repeat constructor; cbn; now rewrite E|].
      inversion IH; subst. constructor; [cbn; now rewrite E | assumption].
Qed.

Lemma strings_Join_cons e rest :
  rest <> [] -> strings_Join (e :: rest) "/" = e +:+ "/" +:+ strings_Join rest "/".
Proof. destruct rest; [congruence | reflexivity]. Qed.

Lemma strings_Join_app l1 l2 :
  l1 <> [] -> l2 <> [] ->
  strings_Join (l1 ++ l2) "/" = strings_Join l1 "/" +:+ "/" +:+ strings_Join l2 "/".
Proof.
  intros H1 H2. induction l1 as [|e l1 IH]; [congruence|].
  destruct l1 as [|e' l1].
  - cbn [app]. now apply strings_Join_cons.
  - rewrite <- app_comm_cons, !strings_Join_cons by (try discriminate; now destruct l1).
    rewrite IH by discriminate. now rewrite !append_assoc.
Qed.

(** Splitting what was joined gives the elements back. *)
Lemma strings_Split_Join l :
  l <> [] -> Forall (fun e => contains "/" e = false) l ->
  strings_Split "/" (strings_Join l "/") = l.
Proof.
  intros Hne Hl. induction l as [|e l IH]; [congruence|].
  inversion Hl as [|? ? He Hl']; subst.
  destruct l as [|e' l].
  - now apply strings_Split_no_sep.
  - rewrite strings_Join_cons by discriminate.
    change ("/" +:+ strings_Join (e' :: l) "/")
      with (String "/" (strings_Join (e' :: l) "/")).
    rewrite strings_Split_app, IH by (try discriminate; assumption).
    now rewrite (strings_Split_no_sep _ _ He).
Qed.

Lemma fold_clean_elems l acc :
  Forall (fun e => e = "" \/ plain e) l ->
  fold_left (clean_elem true) l acc = rev (filter (fun e => e <> "") l) ++ acc.
Proof.
  intros Hl. revert acc. induction Hl as [|e l He Hl IH]; intros acc; [reflexivity|].
  cbn [fold_left]. destruct He as [-> | (H0 & H1 & H2 & _)].
  - change (clean_elem true acc "") with acc.
    rewrite IH, filter_cons_False by (intros H; now apply H). reflexivity.
  - rewrite clean_elem_plain, IH, filter_cons_True by assumption.
    cbn [rev]. now rewrite <- app_assoc.
Qed.

Lemma fold_clean_plain rooted l acc :
  rooted = true ->
  Forall (fun e => contains "/" e = false) l -> Forall plain acc ->
  Forall plain (fold_left (clean_elem rooted) l acc).
Proof.
  intros -> Hl. revert acc. induction Hl as [|e l He Hl IH]; intros acc Hacc; [exact Hacc|].
  cbn [fold_left]. apply IH. unfold clean_elem.
  destruct (String.eqb_spec e ""); [exact Hacc|].
  destruct (String.eqb_spec e "."); [exact Hacc|].
  destruct (String.eqb_spec e "..").
  - destruct acc as [|top below]; [exact Hacc|].
    destruct (String.eqb top ".."); [exact Hacc|].
    now inversion Hacc.
  - constructor; [repeat split; assumption | exact Hacc].
Qed.

Lemma filter_plain l :
  Forall plain l -> filter (fun e => e <> "") l = l.
Proof.
  induction 1 as [|e l (H & _) Hl IH]; [reflexivity|].
  now rewrite filter_cons_True, IH.
Qed.

(** A cleaned rooted path is the rooted path of plain elements. *)
Lemma Clean_rooted p :
  IsAbs p = true -> exists elems, Forall plain elems /\ Clean p = path_of elems.
Proof.
  intros Habs. destruct p as [|c p]; [discriminate|].
  exists (rev (fold_left (clean_elem true) (strings_Split Separator (String c p)) [])).
  split.
  - apply Forall_rev, fold_clean_plain; [reflexivity | apply strings_Split_elems | constructor].
  - unfold Clean. rewrite Habs. reflexivity.
Qed.

Lemma Clean_path_of l :
  Forall (fun e => e = "" \/ plain e) l ->
  Clean (path_of l) = path_of (filter (fun e => e <> "") l).
Proof.
  intros Hl. unfold Clean.
  change (String.eqb (path_of l) "") with false.
  change (IsAbs (path_of l)) with true. cbv iota.
  assert (E : strings_Split Separator (path_of l)
              = "" :: match l with [] => [""] | _ => l end).
  { unfold path_of. change ("/" +:+ ?x) with ("" +:+ String Separator x).
    rewrite strings_Split_app. destruct l as [|e l]; [reflexivity|].
    rewrite strings_Split_Join; [reflexivity | discriminate |].
    eapply Forall_impl; [exact Hl|]. intros x [-> | (_ & _ & _ & H)]; [reflexivity | exact H]. }
  rewrite E. cbn [fold_left]. change (clean_elem true [] "") with (@nil string).
  destruct l as [|e l]; [reflexivity|].
  rewrite fold_clean_elems by exact Hl. now rewrite app_nil_r, rev_involutive.
Qed.

(** Joining a cleaned rooted path with further elements appends the
    elements that are not empty. *)
Lemma Join_path_of elems l :
  Forall plain elems -> l <> [] -> Forall (fun e => e = "" \/ plain e) l ->
  Join [path_of elems; strings_Join l "/"]
  = path_of (elems ++ filter (fun e => e <> "") l).
Proof.
  intros He Hne Hl. unfold Join. change (String.eqb (path_of elems) "") with false.
  cbv iota. rewrite strings_Join_cons by discriminate. cbn [strings_Join].
  assert (E : path_of elems +:+ "/" +:+ strings_Join l "/"
              = path_of (match elems with [] => [""] | _ => elems end ++ l)).
  { unfold path_of. rewrite strings_Join_app by (try assumption; now destruct elems).
    destruct elems; [reflexivity | now rewrite append_assoc]. }
  rewrite E, Clean_path_of.
  - f_equal. rewrite filter_app. f_equal. destruct elems as [|e elems]; [reflexivity|].
    now apply filter_plain.
  - apply Forall_app. split; [|exact Hl].
    destruct elems; [repeat constructor; now left|].
    eapply Forall_impl; [exact He|]. intros x H. now right.
Qed.

Lemma Join_rooted a b :
  IsAbs a = true -> exists elems, Forall plain elems /\ Join [a; b] = path_of elems.
Proof.
  intros Ha. destruct a as [|c a]; [discriminate|].
  unfold Join. change (String.eqb (String c a) "") with false. cbv iota.
  apply Clean_rooted. exact Ha.
Qed.


Lemma Join_root elems : Forall plain elems -> Join ["/"; path_of elems] = path_of elems.
Proof.
  intros He.
  pose (l := "" :: match elems with [] => [""] | _ => elems end).
  assert (E : path_of elems = strings_Join l "/") by (destruct elems; reflexivity).
  assert (Hl : Forall (fun e => e = "" \/ plain e) l).
  { constructor; [now left|]. destruct elems; [repeat constructor; now left|].
    eapply Forall_impl; [exact He|]. intros x H. now right. }
  rewrite E at 1.
  change "/" with (path_of []) at 1.
  rewrite (Join_path_of [] l (List.Forall_nil _) ltac:(discriminate) Hl).
  unfold l. rewrite filter_cons_False by (intros H; now apply H).
  destruct elems as [|e elems]; [reflexivity|]. now rewrite filter_plain.
Qed.

Lemma Join_slash elems : Forall plain elems -> Join [path_of elems; "/"] = path_of elems.
Proof.
  intros He.
  assert (Hl : Forall (fun e => e = "" \/ plain e) [""; ""])
    by (repeat constructor; now left).
  pose proof (Join_path_of elems [""; ""] He ltac:(discriminate) Hl) as H.
  change (strings_Join [""; ""] "/") with "/" in H.
  rewrite H. now rewrite app_nil_r.
Qed.

Lemma plain_old_root : plain ".old_root".
Proof. repeat split; discriminate. Qed.

Lemma Join_holding elems :
  Forall plain elems ->
  Join [path_of elems; oldRootDir] = path_of (elems ++ [".old_root"]) /\
  Join [path_of elems; "/" +:+ oldRootDir] = path_of (elems ++ [".old_root"]).
Proof.
  intros He. split.
  - apply (Join_path_of elems [".old_root"] He ltac:(discriminate)).
    apply Forall_cons; split; [right; exact plain_old_root | constructor].
  - apply (Join_path_of elems [""; ".old_root"] He ltac:(discriminate)).
    apply Forall_cons; split; [now left|].
    apply Forall_cons; split; [right; exact plain_old_root | constructor].
Qed.

Lemma filepath_Abs_rooted rootfs env t a t1 :
  filepath_Abs rootfs env t = (Ret (a, None), t1) ->
  IsAbs rootfs = true \/ IsAbs (fs_cwd (fs_after (env_fs env) t)) = true ->
  exists elems, Forall plain elems /\ a = path_of elems.
Proof.
  unfold filepath_Abs. destruct (IsAbs rootfs) eqn:Habs.
  - unfold ret. intros H _. inversion H. now apply Clean_rooted.
  - unfold bind, Getwd, ret. destruct (env_err env t os_Getwd); [discriminate|].
    intros H [Hr | Hc]; [discriminate|]. inversion H. now apply Join_rooted.
Qed.

(** ** The Primary strategy, step by step *)

Lemma filepath_Abs_inv_err path env t a e t1 :
  filepath_Abs path env t = (Ret (a, Some e), t1) ->
  IsAbs path = false /\ t1 = t ++ [Sys os_Getwd (Some e)].
Proof.
  unfold filepath_Abs. destruct (IsAbs path).
  - unfold ret. intros H. inversion H.
  - unfold bind, Getwd, ret. destruct (env_err env t os_Getwd); intros H;
      inversion H. auto.
Qed.

Ltac case_calls H :=
  repeat match type of H with
         | context [env_err ?e ?h ?c] => destruct (env_err e h c) eqn:?
         end.

Lemma PivotRoot_ok_inv rootfs env t t' :
  PivotRootIsolator_Isolate rootfs env t = (Ret None, t') ->
  exists a t1 eu er,
    filepath_Abs rootfs env t = (Ret (a, None), t1) /\
    t' = t1 ++ primary_success_events a eu er.
Proof.
  intros H. unfold PivotRootIsolator_Isolate in H.
  apply bind_inv_ret in H as ([a [e0|]] & t1 & Habs & H); [discriminate H|].
  exists a, t1. unfold bind, sys, ret, fmt_Println, fmt_Printf in H.
  case_calls H; inversion H; subst; clear H;
    match goal with
    | Hu : env_err _ _ (syscall_Unmount _ _) = ?eu,
      Hr : env_err _ _ (os_Remove _) = ?er |- _ => exists eu, er
    end;
    (split; [exact Habs|]);
    unfold primary_success_events, unmount_call, remove_call, cleanup_log;
    rewrite <- ?app_assoc; reflexivity.
Qed.

(** ** Usage errors of the two roles *)

(** X1. With fewer than two arguments [run] prints its usage line and ends
    the process with code 1; nothing is spawned. *)
Theorem run_usage :
  forall args env t,
    (length args < 2)%nat ->
    run args env t = (Exit 1, t ++ [Print (usage_run +:+ LF)]).
Proof.
  intros args env t H. unfold run.
  destruct (Nat.ltb_spec (length args) 2) as [_|Hge]; [reflexivity | lia].
Qed.

(** X2. With fewer than two arguments [child] prints its usage line and
    ends the process with code 1 before any call to the system, the [stat]
    of the root path included. *)
Theorem child_usage :
  forall args env t,
    (length args < 2)%nat ->
    child args env t = (Exit 1, t ++ [Print (usage_child +:+ LF)]).
Proof.
  intros args env t H. unfold child.
  destruct (Nat.ltb_spec (length args) 2) as [_|Hge]; [reflexivity | lia].
Qed.

(** ** What the Launcher does *)

Lemma emits_launcher args : emits (launcher_event args) (run args).
Proof. unfold run. emits_prog ltac:(easy). Qed.

(** X3. The arguments the Launcher gives to the process it starts are read
    back by [main] as the Init role on the same arguments: on at least two
    arguments the first event of [run] starts a command [c], and [main] on
    the argument vector of [c] is [child] on the arguments of [run]. *)
Theorem reexec_round_trip :
  forall args env t ienv it,
    (2 <= length args)%nat ->
    exists c err l,
      snd (run args env t) = t ++ Sys (cmd_Start c) err :: l /\
      Path c = "/proc/self/exe" /\
      main (Path c :: Args c) ienv it = child args ienv it.
Proof.
  intros args env t ienv it Hlen.
  destruct (run_first_event args env t Hlen) as (l & E).
  exists (run_cmd args), (env_err env t (cmd_Start (run_cmd args))), l.
  split; [exact E|]. split; reflexivity.
Qed.

(** X4. The Launcher only spawns: every event of [run] is output, or the
    start of (or the wait for) the one command [/proc/self/exe child args]
    with the caller's streams; it makes no file-system, isolation or mount
    call.  The clone flags of that command are exactly the bits of the
    mount (17), UTS (26) and PID (29) namespaces. *)
Theorem launcher_only_spawns :
  forall args env t,
    (exists l, snd (run args env t) = t ++ l /\
               Forall (launcher_event args) l /\
               Forall (fun e => is_isolation e = false /\ is_mount e = false) l) /\
    Stdio_inherited (run_cmd args) = true /\
    forall n, Z.testbit (Cloneflags (run_cmd args)) n
              = ((n =? 17) || (n =? 26) || (n =? 29))%bool.
Proof.
  intros args env t. split; [|split; [reflexivity|]].
  - destruct (emits_launcher args env t) as (l & E & F).
    exists l. split; [exact E|]. split; [exact F|].
    eapply Forall_impl; [exact F|].
    intros [text|[] err]; cbn; intros H; try contradiction; auto.
  - intros n. change (Cloneflags (run_cmd args)) with 604110848.
    destruct (Z_lt_ge_dec n 0) as [Hneg|Hpos].
    { rewrite Z.testbit_neg_r by lia.
      destruct (Z.eqb_spec n 17), (Z.eqb_spec n 26), (Z.eqb_spec n 29); lia || reflexivity. }
    destruct (Z_lt_ge_dec n 30) as [Hlt|Hge].
    + remember (Z.to_nat n) as k eqn:Hk.
      assert (Hn : n = Z.of_nat k) by lia. rewrite Hn.
      assert (Hb : (k < 30)%nat) by lia. clear Hk Hn Hpos Hlt.
      do 30 (destruct k as [|k]; [reflexivity|]). lia.
    + rewrite Z.bits_above_log2 by (cbn; lia).
      destruct (Z.eqb_spec n 17), (Z.eqb_spec n 26), (Z.eqb_spec n 29); lia || reflexivity.
Qed.

(** X5. When the Init process cannot be started, the Launcher prints the
    error and ends with code 1 without waiting for anything. *)
Theorem spawn_failure_is_fatal :
  forall args env t e,
    (2 <= length args)%nat ->
    env_err env t (cmd_Start (run_cmd args)) = Some e ->
    run args env t =
      (Exit 1, t ++ [Sys (cmd_Start (run_cmd args)) (Some e);
                     Print (LF +:+ e +:+ LF)]).
Proof.
  intros args env t e Hlen Hstart.
  rewrite (run_valid_args _ _ _ Hlen). unfold Run.
  rewrite bind_assoc, bind_sys, Hstart. cbn. now rewrite <- app_assoc.
Qed.

(** ** Outcomes of the Legacy and of the Primary strategy *)

(** X6. The three outcomes of the Legacy strategy.  It fails with
    [chroot failed: ...] when [chroot] fails, and then makes no other call;
    it fails with [chdir to / failed after chroot: ...] when the change of
    directory fails after a successful [chroot]; it succeeds exactly after
    both calls succeeded, and then prints its one line. *)
Theorem chroot_outcomes :
  forall rootfs env t r t',
    ChrootIsolator_Isolate rootfs env t = (Ret r, t') ->
    match r with
    | None =>
        t' = t ++ [Sys (syscall_Chroot rootfs) None;
                   Sys (syscall_Chdir "/") None;
                   Print ("Using chroot for filesystem isolation" +:+ LF)]
    | Some e =>
        (exists e0, e = "chroot failed: " +:+ e0 /\
                    t' = t ++ [Sys (syscall_Chroot rootfs) (Some e0)]) \/
        (exists e0, e = "chdir to / failed after chroot: " +:+ e0 /\
                    t' = t ++ [Sys (syscall_Chroot rootfs) None;
                               Sys (syscall_Chdir "/") (Some e0)])
    end.
Proof.
  intros rootfs env t r t' H.
  unfold ChrootIsolator_Isolate, bind, sys, ret, fmt_Println, fmt_Printf in H.
  case_calls H; inversion H; subst; clear H; rewrite <- ?app_assoc.
  - left. eauto.
  - right. eauto.
  - reflexivity.
Qed.

(** X7. When the Primary strategy fails, the error names the step that
    failed and that step is the last call made: the working directory could
    not be read (relative root path), the holding directory could not be
    made, [pivot_root] failed, or the change of directory failed.  No
    unmount and no removal is attempted on any of these paths. *)
Theorem primary_failure_inversion :
  forall rootfs env t e t',
    PivotRootIsolator_Isolate rootfs env t = (Ret (Some e), t') ->
    (exists e0,
        IsAbs rootfs = false /\
        e = "cannot get absolute path for " +:+ rootfs +:+ ": " +:+ e0 /\
        t' = t ++ [Sys os_Getwd (Some e0)]) \/
    (exists a t1,
        filepath_Abs rootfs env t = (Ret (a, None), t1) /\
        let mk := os_MkdirAll (Join [a; oldRootDir]) mode_0700 in
        let pv := syscall_PivotRoot a (Join [a; oldRootDir]) in
        (exists e0, e = "cannot create old_root directory: " +:+ e0 /\
                    t' = t1 ++ [Sys mk (Some e0)]) \/
        (exists e0, e = "pivot_root failed: " +:+ e0 /\
                    t' = t1 ++ [Sys mk None; Sys pv (Some e0)]) \/
        (exists e0, e = "chdir to / failed after pivot_root: " +:+ e0 /\
                    t' = t1 ++ [Sys mk None; Sys pv None;
                                Sys (syscall_Chdir "/") (Some e0)])).
Proof.
  intros rootfs env t e t' H. unfold PivotRootIsolator_Isolate in H.
  apply bind_inv_ret in H as ([a [e0|]] & t1 & Habs & H).
  - left. exists e0. destruct (filepath_Abs_inv_err _ _ _ _ _ _ Habs) as [Hrel ->].
    unfold ret in H. inversion H. auto.
  - right. exists a, t1. split; [exact Habs|].
    unfold bind, sys, ret, fmt_Println, fmt_Printf in H.
    case_calls H; inversion H; subst; clear H; rewrite <- ?app_assoc; cbn zeta.
    + left. eauto.
    + right. left. eauto.
    + right. right. eauto.
Qed.

(** ** The root and the working directory after isolation *)



Lemma fs_after_Abs rootfs env t r t1 :
  filepath_Abs rootfs env t = (Ret (r, None), t1) ->
  fs_after (env_fs env) t1 = fs_after (env_fs env) t.
Proof.
  intros H. destruct (filepath_Abs_inv _ _ _ _ _ H) as [-> | ->]; [reflexivity|].
  now rewrite fs_after_app.
Qed.

(** X9. After a successful run of the Primary strategy that started in the
    root [/], the root of the process is the absolute new root and so is
    its working directory; and when the removal succeeded, the holding
    directory no longer exists.  The strategy made, in this order, the
    directory, the root swap, the change of directory, one unmount and one
    removal. *)
Theorem primary_success_state :
  forall rootfs env t t',
    PivotRootIsolator_Isolate rootfs env t = (Ret None, t') ->
    fs_root (fs_after (env_fs env) t) = "/" ->
    IsAbs rootfs = true \/ IsAbs (fs_cwd (fs_after (env_fs env) t)) = true ->
    exists a t1 eu er,
      filepath_Abs rootfs env t = (Ret (a, None), t1) /\
      t' = t1 ++ primary_success_events a eu er /\
      fs_root (fs_after (env_fs env) t') = a /\
      fs_cwd (fs_after (env_fs env) t') = a /\
      (er = None -> Join [a; oldRootDir] ∉ fs_entries (fs_after (env_fs env) t')).
Proof.
  intros rootfs env t t' H Hroot Hrooted.
  destruct (PivotRoot_ok_inv _ _ _ _ H) as (a & t1 & eu & er & Habs & ->).
  exists a, t1, eu, er. split; [exact Habs|]. split; [reflexivity|].
  destruct (filepath_Abs_rooted _ _ _ _ _ Habs Hrooted) as (elems & He & ->).
  rewrite fs_after_app, (fs_after_Abs _ _ _ _ _ Habs).
  destruct (fs_after (env_fs env) t) as [root cwd entries].
  cbn [fs_root] in Hroot. subst root.
  destruct (Join_holding elems He) as [E1 E2].
  pose proof (Join_root elems He) as Er.
  pose proof (Join_slash elems He) as Es.
  assert (R1 : forall c e, resolve (mkFS "/" c e) (path_of elems) = path_of elems).
  { intros c e. unfold resolve. exact Er. }
  assert (R2 : forall c e, resolve (mkFS (path_of elems) c e) "/" = path_of elems).
  { intros c e. unfold resolve. exact Es. }
  assert (R3 : forall c e, resolve (mkFS (path_of elems) c e) ("/" +:+ oldRootDir)
                           = Join [path_of elems; oldRootDir]).
  { intros c e. unfold resolve. cbn [fs_root]. change (IsAbs ("/" +:+ oldRootDir)) with true.
    cbv iota. now rewrite E1, E2. }
  unfold primary_success_events, unmount_call, remove_call.
  destruct eu, er; cbn [cleanup_log app fs_after fold_left apply_event apply_call
                        fs_root fs_cwd fs_entries];
    rewrite ?R1, ?R2, ?R3; (split; [reflexivity|]); (split; [reflexivity|]);
    intros Her; try discriminate;
    apply not_elem_of_difference; right; now apply elem_of_singleton.
Qed.



(** ** The Init role after isolation *)

Lemma child_isolated env rootfs cmd rest t h :
  isolated env rootfs cmd t h ->
  child (rootfs :: cmd :: rest) env t
  = after_isolation (exec_Command (resolved cmd) rest) env h.
Proof.
  intros (t1 & Hval & Hiso). child_start. change (drop 0 rest) with rest.
  rewrite (bind_ret _ _ _ _ _ _ Hval). cbn [handle].
  change (bind (ret tt) ?k env t1) with (k tt env t1). cbv beta.
  rewrite (bind_ret _ _ _ _ _ _ (getCmdPath_eq cmd env t1)).
  destruct Hiso as [Hp | (e & t2 & Hp & Hc)].
  - rewrite (bind_ret _ _ _ _ _ _ Hp). reflexivity.
  - rewrite (bind_ret _ _ _ _ _ _ Hp).
    rewrite bind_assoc, bind_Printf, bind_assoc.
    rewrite (bind_ret _ _ _ _ _ _ Hc). reflexivity.
Qed.

Lemma emits_after_isolation P c :
  (forall text, P (Print text)) ->
  (forall err, P (Sys mount_proc_call err)) ->
  (forall err, P (Sys (cmd_Start c) err)) ->
  (forall err, P (Sys (cmd_Wait c) err)) ->
  emits P (after_isolation c).
Proof.
  intros Hp Hm Hs Hw. unfold after_isolation, mountProc.
  emits_prog ltac:(auto).
Qed.

Lemma sys_ok_inv c env t t' :
  sys c env t = (Ret None, t') ->
  env_err env t c = None /\ t' = t ++ [Sys c None].
Proof.
  unfold sys. intros H. inversion H as [[E Ht]]. now rewrite E.
Qed.

(** X11. The Legacy strategy is never attempted first: when the Primary
    strategy succeeds, the next call of [child] is the mount of [proc] and
    no event of the whole run is a [chroot] call. *)
Theorem primary_success_skips_chroot :
  forall env rootfs cmd rest t t1 h,
    validateRootfs rootfs env t = (Ret None, t1) ->
    PivotRootIsolator_Isolate rootfs env
      (t1 ++ [Print (resolution_message cmd)]) = (Ret None, h) ->
    (exists err l,
       snd (child (rootfs :: cmd :: rest) env t)
       = h ++ Sys mount_proc_call err :: l) /\
    exists l,
      snd (child (rootfs :: cmd :: rest) env t) = t ++ l /\
      Forall (fun ev => is_chroot_call ev = false) l.
Proof.
  intros env rootfs cmd rest t t1 h Hval Hp.
  assert (Hiso : isolated env rootfs cmd t h) by (exists t1; auto).
  rewrite (child_isolated _ _ _ rest _ _ Hiso).
  pose (P := fun ev => is_chroot_call ev = false).
  destruct (emits_after_isolation P (exec_Command (resolved cmd) rest)
              ltac:(easy) ltac:(easy) ltac:(easy) ltac:(easy) env h)
    as (l & E & F).
  split.
  - unfold after_isolation, mountProc in *. rewrite bind_sys in *.
    match goal with
    | |- context [snd (?m env ?h')] =>
        assert (Hrest : emits any_event m) by (emits_prog ltac:(easy));
        destruct (Hrest env h') as (l' & -> & _)
    end.
    eexists _, l'. now rewrite <- app_assoc.
  - rewrite E.
    destruct (emits_run P _ _ _ _ _
                ltac:(apply emits_validateRootfs; easy) Hval) as (l1 & -> & F1).
    destruct (emits_run P _ _ _ _ _
                ltac:(apply emits_PivotRootIsolator; [easy | intros [] ?; easy]) Hp)
      as (l2 & -> & F2).
    eexists. rewrite <- !app_assoc. split; [reflexivity|].
    repeat (apply Forall_app; split); auto; repeat constructor.
Qed.

(** X12. When [pivot_root] has succeeded and the change of directory that
    follows it fails, the Primary strategy reports a failure, and the
    fallback then calls [chroot] on the root path in a process whose root
    has already been swapped to the new root. *)
Theorem fallback_on_swapped_root :
  forall env rootfs cmd rest t t0 a t1 t2 t3 e,
    validateRootfs rootfs env t = (Ret None, t0) ->
    filepath_Abs rootfs env (t0 ++ [Print (resolution_message cmd)])
      = (Ret (a, None), t1) ->
    sys (os_MkdirAll (Join [a; oldRootDir]) mode_0700) env t1 = (Ret None, t2) ->
    sys (syscall_PivotRoot a (Join [a; oldRootDir])) env t2 = (Ret None, t3) ->
    env_err env t3 (syscall_Chdir "/") = Some e ->
    exists h err l,
      h = t3 ++ [Sys (syscall_Chdir "/") (Some e);
                 Print (fallback_warning ("chdir to / failed after pivot_root: " +:+ e))] /\
      snd (child (rootfs :: cmd :: rest) env t)
        = h ++ Sys (syscall_Chroot rootfs) err :: l /\
      fs_root (fs_after (env_fs env) h) = resolve (fs_after (env_fs env) t) a.
Proof.
  intros env rootfs cmd rest t t0 a t1 t2 t3 e Hval Habs Hmk Hpv Hcd.
  assert (Hprim : PivotRootIsolator_Isolate rootfs env
                    (t0 ++ [Print (resolution_message cmd)])
                  = (Ret (Some ("chdir to / failed after pivot_root: " +:+ e)),
                     t3 ++ [Sys (syscall_Chdir "/") (Some e)])).
  { unfold PivotRootIsolator_Isolate.
    rewrite (bind_ret _ _ _ _ _ _ Habs). cbv beta iota.
    rewrite (bind_ret _ _ _ _ _ _ Hmk). cbv beta iota.
    rewrite (bind_ret _ _ _ _ _ _ Hpv). cbv beta iota.
    rewrite bind_sys, Hcd. reflexivity. }
  destruct (child_after_failed_primary env rootfs cmd rest _ _ _ _ Hval Hprim)
    as (l & Hchild).
  eexists _, _, l. split; [reflexivity|]. split.
  { rewrite Hchild. now rewrite <- !app_assoc. }
  apply sys_ok_inv in Hmk as [_ ->]. apply sys_ok_inv in Hpv as [_ ->].
  pose proof (validateRootfs_ok _ _ _ _ Hval) as ->.
  rewrite !fs_after_app, (fs_after_Abs _ _ _ _ _ Habs), !fs_after_app.
  cbn [fs_after fold_left apply_event apply_call fs_root].
  reflexivity.
Qed.

(** X13. A failure of the mount of [proc] is fatal: once the root is
    isolated, if the mount fails [child] prints the error and ends with
    code 1, and the target command is never started. *)
Theorem mount_failure_is_fatal :
  forall env rootfs cmd rest t h e,
    isolated env rootfs cmd t h ->
    env_err env h mount_proc_call = Some e ->
    child (rootfs :: cmd :: rest) env t =
      (Exit 1, h ++ [Sys mount_proc_call (Some e); Print (LF +:+ e +:+ LF)]).
Proof.
  intros env rootfs cmd rest t h e Hiso Hm.
  rewrite (child_isolated _ _ _ rest _ _ Hiso).
  unfold after_isolation, mountProc. rewrite bind_sys.
  change (syscall_Mount procFS procFS procFS 0 "") with mount_proc_call.
  rewrite Hm. cbn. now rewrite <- app_assoc.
Qed.

(** X14. When the target command cannot be started (not found under the
    new root, not executable, ...), [child] prints the error and ends with
    code 1 without waiting for anything. *)
Theorem start_failure_is_fatal :
  forall env rootfs cmd rest t h e,
    isolated env rootfs cmd t h ->
    env_err env h mount_proc_call = None ->
    env_err env (h ++ [Sys mount_proc_call None])
            (cmd_Start (exec_Command (resolved cmd) rest)) = Some e ->
    child (rootfs :: cmd :: rest) env t =
      (Exit 1,
       h ++ [Sys mount_proc_call None;
             Sys (cmd_Start (exec_Command (resolved cmd) rest)) (Some e);
             Print (LF +:+ e +:+ LF)]).
Proof.
  intros env rootfs cmd rest t h e Hiso Hm Hs.
  rewrite (child_isolated _ _ _ rest _ _ Hiso).
  unfold after_isolation, mountProc. rewrite bind_sys.
  change (syscall_Mount procFS procFS procFS 0 "") with mount_proc_call.
  rewrite Hm. cbn [handle]. change (bind (ret tt) ?k env ?x) with (k tt env x).
  cbv beta. unfold Run. rewrite bind_assoc, bind_sys, Hs.
  cbn. now rewrite <- !app_assoc.
Qed.

(** X15. The exit status of the target command is not passed on: when the
    target was started and waited for, [child] returns (exit code 0) if it
    exited with status 0, and otherwise prints the status and ends with
    code 1, whatever the status was. *)
Theorem target_status_is_collapsed :
  forall env rootfs cmd rest t h st,
    isolated env rootfs cmd t h ->
    let c := exec_Command (resolved cmd) rest in
    let h2 := h ++ [Sys mount_proc_call None; Sys (cmd_Start c) None] in
    env_err env h mount_proc_call = None ->
    env_err env (h ++ [Sys mount_proc_call None]) (cmd_Start c) = None ->
    env_err env h2 (cmd_Wait c) = None ->
    env_status env h2 c = st ->
    child (rootfs :: cmd :: rest) env t =
      match st with
      | Exited 0 => (Ret tt, h2 ++ [Sys (cmd_Wait c) None])
      | _ => (Exit 1, h2 ++ [Sys (cmd_Wait c) (Some (status_text st));
                             Print (LF +:+ status_text st +:+ LF)])
      end.
Proof.
  intros env rootfs cmd rest t h st Hiso c h2 Hm Hs Hw Hst.
  rewrite (child_isolated _ _ _ rest _ _ Hiso). fold c.
  unfold after_isolation, mountProc. rewrite bind_sys.
  change (syscall_Mount procFS procFS procFS 0 "") with mount_proc_call.
  rewrite Hm. cbn [handle]. change (bind (ret tt) ?k env ?x) with (k tt env x).
  cbv beta. unfold Run. rewrite bind_assoc, bind_sys, Hs.
  unfold bind, Wait. rewrite <- app_assoc. cbn [app]. fold h2.
  rewrite Hw, Hst.
  destruct st as [[|p|p]|sig]; cbn; rewrite <- ?app_assoc; reflexivity.
Qed.

(** X16. Every failure of [os.Stat] on the root path is reported as
    [rootfs path does not exist] and is fatal, also when the path exists
    and the call failed for another reason (a permission, for one): [child]
    prints the message and ends with code 1 without any other call. *)
Theorem stat_failure_is_fatal :
  forall env rootfs cmd rest t e,
    env_err env t (os_Stat rootfs) = Some e ->
    child (rootfs :: cmd :: rest) env t =
      (Exit 1,
       t ++ [Sys (os_Stat rootfs) (Some e);
             Print (LF +:+ ("rootfs path does not exist: " +:+ rootfs +:+ ": " +:+ e)
                       +:+ LF)]).
Proof.
  intros env rootfs cmd rest t e Herr.
  child_start. unfold validateRootfs. rewrite bind_assoc.
  unfold bind at 1. unfold Stat. rewrite Herr.
  cbn. now rewrite <- app_assoc.
Qed.

(** X17. The path [getCmdPath] returns always contains a separator, so it
    is never looked up in the host's PATH; for a command without a
    separator it is an absolute path.  [getCmdPath] itself makes no call to
    the system (it does not check that the command exists): it prints one
    line. *)
Theorem resolved_has_separator :
  forall cmdPath env t,
    exists p text,
      getCmdPath cmdPath env t = (Ret p, t ++ [Print text]) /\
      contains "/" p = true /\
      (contains "/" cmdPath = false -> IsAbs p = true).
Proof.
  intros cmdPath env t. rewrite getCmdPath_eq.
  exists (resolved cmdPath), (resolution_message cmdPath).
  split; [reflexivity|]. unfold resolved.
  destruct (contains "/" cmdPath) eqn:Hsep.
  - split; [exact Hsep | discriminate].
  - destruct (Join_rooted "/bin/" cmdPath eq_refl) as (elems & _ & ->).
    split; [reflexivity | intros _; reflexivity].
Qed.

(** ** The order of the steps of the Init role *)

Lemma in_phases_first P Ps l : Forall P l -> in_phases (P :: Ps) l.
Proof.
  intros H. exists (l :: map (fun _ => []) Ps). split.
  - cbn [concat]. assert (E : concat (map (fun _ : Event -> Prop => @nil Event) Ps) = [])
      by (induction Ps; auto).
    now rewrite E, app_nil_r.
  - constructor; [exact H|]. induction Ps; constructor; auto.
Qed.

Lemma in_phases_cons P Ps l1 l2 :
  Forall P l1 -> in_phases (P :: Ps) l2 -> in_phases (P :: Ps) (l1 ++ l2).
Proof.
  intros H1 (segs & -> & F). inversion F as [|? s ? ss Hs Hss]; subst.
  exists ((l1 ++ s) :: ss). split.
  - cbn [concat]. now rewrite app_assoc.
  - constructor; [apply Forall_app; auto | exact Hss].
Qed.

Lemma phased_stay {A B} P Ps (m : M A) (k : A -> M B) :
  emits P m -> (forall a, phased (P :: Ps) (k a)) -> phased (P :: Ps) (bind m k).
Proof.
  intros Hm Hk env t. unfold bind. destruct (Hm env t) as (l1 & E1 & F1).
  destruct (m env t) as [[a|code] t1]; cbn [snd] in E1; subst t1.
  - destruct (Hk a env (t ++ l1)) as (l2 & E2 & F2).
    exists (l1 ++ l2). rewrite E2, app_assoc. split; [reflexivity|].
    now apply in_phases_cons.
  - exists l1. split; [reflexivity | now apply in_phases_first].
Qed.

Lemma phased_next {A} P Ps (m : M A) : phased Ps m -> phased (P :: Ps) m.
Proof.
  intros Hm env t. destruct (Hm env t) as (l & E & segs & -> & F).
  exists (concat segs). split; [exact E|].
  exists ([] :: segs). split; [reflexivity | constructor; [constructor | exact F]].
Qed.

Lemma phased_last {A} P (m : M A) : emits P m -> phased [P] m.
Proof.
  intros Hm env t. destruct (Hm env t) as (l & E & F).
  exists l. split; [exact E | now apply in_phases_first].
Qed.

(** X18. The steps of the Init role are never reordered: the events of
    every run of [child] are, in this order, the validation (the [stat] of
    the root path), the calls of the isolation strategies, the mount, and
    the start of and wait for the target command, with output in between;
    a run that ends early stops within this order. *)
Theorem child_steps_in_order :
  forall args env t,
    exists l0 l1 l2 l3,
      snd (child args env t) = t ++ l0 ++ l1 ++ l2 ++ l3 /\
      Forall (printed_or is_stat) l0 /\
      Forall (printed_or is_isolation) l1 /\
      Forall (printed_or is_mount) l2 /\
      Forall (printed_or is_launch) l3.
Proof.
  intros args env t.
  assert (H : phased [printed_or is_stat; printed_or is_isolation;
                      printed_or is_mount; printed_or is_launch] (child args)).
  { unfold child.
    apply phased_stay; [emits_prog ltac:(easy) | intros _].
    apply phased_stay; [apply emits_validateRootfs; easy | intros err].
    apply phased_stay; [apply emits_handle; easy | intros _].
    apply phased_stay; [apply emits_getCmdPath; easy | intros binPath].
    apply phased_next.
    apply phased_stay;
      [apply emits_PivotRootIsolator; [easy | intros [] ?; easy] | intros err1].
    apply phased_stay; [emits_prog ltac:(easy) | intros _].
    apply phased_next.
    apply phased_stay; [unfold mountProc; apply emits_sys; easy | intros err2].
    apply phased_stay; [apply emits_handle; easy | intros _].
    apply phased_next. apply phased_last. emits_prog ltac:(easy). }
  destruct (H env t) as (l & E & segs & -> & F).
  inversion F as [|? l0 ? s0 F0 F']; subst.
  inversion F' as [|? l1 ? s1 F1 F'']; subst.
  inversion F'' as [|? l2 ? s2 F2 F''']; subst.
  inversion F''' as [|? l3 ? s3 F3 F4]; subst.
  inversion F4; subst.
  exists l0, l1, l2, l3. cbn [concat] in E. rewrite app_nil_r in E. auto.
Qed.

(** ** Every exit is reported *)

Lemma reports_bind {A B} (m : M A) (k : A -> M B) :
  reports_exit m -> (forall a, reports_exit (k a)) -> reports_exit (bind m k).
Proof.
  intros Hm Hk env t. unfold bind. specialize (Hm env t).
  destruct (m env t) as [[a|code] t1]; [apply Hk | exact Hm].
Qed.

Lemma reports_print_exit {A} text :
  reports_exit (bind (fmt_Printf text) (fun _ => @os_Exit A 1)).
Proof. intros env t. cbn. eauto. Qed.

Lemma reports_handle err : reports_exit (handle err).
Proof. destruct err; [apply reports_print_exit | intros env t; exact I]. Qed.

Lemma reports_ret {A} (a : A) : reports_exit (ret a).
Proof. intros env t. exact I. Qed.

Lemma reports_Printf text : reports_exit (fmt_Printf text).
Proof. intros env t. exact I. Qed.

Lemma reports_sys c : reports_exit (sys c).
Proof. intros env t. exact I. Qed.

Lemma reports_Stat name : reports_exit (Stat name).
Proof. intros env t. exact I. Qed.

Lemma reports_Getwd : reports_exit Getwd.
Proof. intros env t. exact I. Qed.

Lemma reports_Wait c : reports_exit (Wait c).
Proof. intros env t. exact I. Qed.

Ltac reports_prog :=
  repeat first
    [ apply reports_ret
    | apply reports_handle
    | apply reports_print_exit
    | apply reports_Printf
    | apply reports_sys
    | apply reports_Stat
    | apply reports_Getwd
    | apply reports_Wait
    | apply reports_bind; [|intro]
    | match goal with
      | |- reports_exit (match ?x with _ => _ end) => destruct x
      | |- reports_exit (if ?b then _ else _) => destruct b
      end ].

Lemma reports_child args : reports_exit (child args).
Proof.
  unfold child, validateRootfs, getCmdPath, PivotRootIsolator_Isolate,
    ChrootIsolator_Isolate, filepath_Abs, mountProc, Run, fmt_Println.
  reports_prog.
Qed.

Lemma reports_run args : reports_exit (run args).
Proof. unfold run, Run, fmt_Println. reports_prog. Qed.

(** X19. The program never ends silently with an error: whenever [main]
    ends the process through [os.Exit], the code is 1 and the last thing
    the process did was to print a line (the usage or the error); in every
    other case [main] returns, so the exit code of the program is 0 or 1. *)
Theorem every_exit_is_reported :
  forall os_Args env t,
    (forall code t',
        main os_Args env t = (Exit code, t') ->
        code = 1 /\ exists l text, t' = l ++ [Print text]) /\
    (exit_code (fst (main os_Args env t)) = 0 \/
     exit_code (fst (main os_Args env t)) = 1).
Proof.
  intros os_Args env t.
  assert (H : reports_exit (main os_Args)).
  { unfold main, fmt_Println.
    repeat match goal with
           | |- reports_exit (if ?b then _ else _) => destruct b
           end; auto using reports_child, reports_run, reports_Printf. }
  specialize (H env t). split.
  - intros code t' E. now rewrite E in H.
  - destruct (main os_Args env t) as [[u|code] t']; cbn; [now left|].
    destruct H as [-> _]. now right.
Qed.

(** ** The command that the Init role starts *)

(** X20. The only process the Init role ever starts is the target command:
    in every run of [child] each start (and each wait) is for the resolved
    command path with the arguments given after the command, unchanged, with
    the caller's streams and without clone flags. *)
Theorem child_starts_only_target :
  forall rootfs cmd rest env t,
    exists l,
      snd (child (rootfs :: cmd :: rest) env t) = t ++ l /\
      Forall (launches_only (mkCmd (resolved cmd) rest true 0)) l.
Proof.
  intros rootfs cmd rest env t.
  pose (P := launches_only (mkCmd (resolved cmd) rest true 0)).
  destruct (emits_validateRootfs P rootfs ltac:(easy) env t)
    as (l1 & E1 & F1).
  child_start. change (drop 0 rest) with rest. unfold bind at 1.
  destruct (validateRootfs rootfs env t) as [[err|code] t1]; cbn [snd] in E1; subst t1;
    [|exists l1; auto].
  unfold bind at 1.
  destruct (emits_handle P ltac:(easy) err env (t ++ l1)) as (l2 & E2 & F2).
  destruct (handle err env (t ++ l1)) as [[u|code] t2]; cbn [snd] in E2; subst t2;
    [|exists (l1 ++ l2); rewrite app_assoc; split; [reflexivity | now apply Forall_app]].
  rewrite (bind_ret _ _ _ _ _ _ (getCmdPath_eq cmd env _)).
  match goal with
  | |- context [snd (?m env ?h)] =>
      assert (Hrest : emits P m)
        by (unfold mountProc, exec_Command; emits_prog ltac:(easy));
      destruct (Hrest env h) as (l3 & -> & F3)
  end.
  eexists. rewrite <- !app_assoc. split; [reflexivity|].
  repeat (apply Forall_app; split); auto. repeat constructor.
Qed.

(** X21. The Launcher's outcome follows the way the Init process ends:
    when Init was started and waited for, [run] returns without any output
    if Init exited with status 0, and otherwise prints the status and ends
    with code 1. *)
Theorem launcher_follows_init :
  forall env args t st,
    (2 <= length args)%nat ->
    let c := run_cmd args in
    env_err env t (cmd_Start c) = None ->
    env_err env (t ++ [Sys (cmd_Start c) None]) (cmd_Wait c) = None ->
    env_status env (t ++ [Sys (cmd_Start c) None]) c = st ->
    run args env t =
      match st with
      | Exited 0 => (Ret tt, t ++ [Sys (cmd_Start c) None; Sys (cmd_Wait c) None])
      | _ => (Exit 1, t ++ [Sys (cmd_Start c) None;
                            Sys (cmd_Wait c) (Some (status_text st));
                            Print (LF +:+ status_text st +:+ LF)])
      end.
Proof.
  intros env args t st Hlen c Hs Hw Hst.
  rewrite (run_valid_args _ _ _ Hlen). fold c. unfold bind.
  rewrite (Run_started _ _ _ Hs). unfold Wait. rewrite Hw, Hst.
  destruct st as [[|p|p]|sig]; cbn; rewrite <- ?app_assoc; reflexivity.
Qed.

(** X22. A failure of the Primary strategy before the root swap leaves the
    root and the working directory of the process as they were: unless the
    failure is that of the change of directory after [pivot_root], the
    fallback runs in the root the process started with. *)
Theorem primary_failure_keeps_root :
  forall rootfs env t e t',
    PivotRootIsolator_Isolate rootfs env t = (Ret (Some e), t') ->
    (forall e0, e <> "chdir to / failed after pivot_root: " +:+ e0) ->
    fs_root (fs_after (env_fs env) t') = fs_root (fs_after (env_fs env) t) /\
    fs_cwd (fs_after (env_fs env) t') = fs_cwd (fs_after (env_fs env) t).
Proof.
  intros rootfs env t e t' H Hnot. unfold PivotRootIsolator_Isolate in H.
  apply bind_inv_ret in H as ([a [e0|]] & t1 & Habs & H).
  - destruct (filepath_Abs_inv_err _ _ _ _ _ _ Habs) as [_ ->].
    unfold ret in H. inversion H. now rewrite fs_after_app.
  - pose proof (fs_after_Abs _ _ _ _ _ Habs) as Hfs.
    unfold bind, sys, ret, fmt_Println, fmt_Printf in H.
    case_calls H; inversion H; subst; clear H;
      try (exfalso; eapply Hnot; reflexivity);
      rewrite !fs_after_app, Hfs; split; reflexivity.
Qed.

(** ** The further theorems on example hosts *)

Lemma run_usage_witness :
  run ["/tmp/rootfs"] env_ok [] = (Exit 1, [] ++ [Print (usage_run +:+ LF)]).
Proof. apply (run_usage ["/tmp/rootfs"] env_ok []). simpl. lia. Defined.

Lemma child_usage_witness :
  child [] env_ok [] = (Exit 1, [] ++ [Print (usage_child +:+ LF)]).
Proof. apply (child_usage [] env_ok []). simpl. lia. Defined.

Lemma reexec_round_trip_witness :
  exists c err l,
    snd (run ["/tmp/rootfs"; "ls"] env_ok []) = [] ++ Sys (cmd_Start c) err :: l /\
    Path c = "/proc/self/exe" /\
    main (Path c :: Args c) env_same_fs [] = child ["/tmp/rootfs"; "ls"] env_same_fs [].
Proof.
  apply (reexec_round_trip ["/tmp/rootfs"; "ls"] env_ok [] env_same_fs []).
  simpl. lia.
Defined.

Lemma spawn_failure_is_fatal_witness :
  run ["/tmp/rootfs"; "ls"] env_no_start [] =
    (Exit 1,
     [] ++ [Sys (cmd_Start (run_cmd ["/tmp/rootfs"; "ls"]))
                (Some "fork/exec: no such file or directory");
            Print (LF +:+ "fork/exec: no such file or directory" +:+ LF)]).
Proof.
  apply (spawn_failure_is_fatal ["/tmp/rootfs"; "ls"] env_no_start []);
    [simpl; lia | reflexivity].
Defined.

Lemma chroot_outcomes_witness :
  (exists e0, "chdir to / failed after chroot: no such file or directory"
              = "chroot failed: " +:+ e0 /\
              [Sys (syscall_Chroot "/tmp/rootfs") None;
               Sys (syscall_Chdir "/") (Some "no such file or directory")]
              = [] ++ [Sys (syscall_Chroot "/tmp/rootfs") (Some e0)]) \/
  (exists e0, "chdir to / failed after chroot: no such file or directory"
              = "chdir to / failed after chroot: " +:+ e0 /\
              [Sys (syscall_Chroot "/tmp/rootfs") None;
               Sys (syscall_Chdir "/") (Some "no such file or directory")]
              = [] ++ [Sys (syscall_Chroot "/tmp/rootfs") None;
                       Sys (syscall_Chdir "/") (Some e0)]).
Proof.
  apply (chroot_outcomes "/tmp/rootfs" env_no_chdir []
           (Some "chdir to / failed after chroot: no such file or directory")).
  vm_compute. reflexivity.
Defined.

Lemma primary_failure_inversion_witness :
  (exists e0,
      IsAbs "/tmp/rootfs" = false /\
      "pivot_root failed: invalid argument"
      = "cannot get absolute path for " +:+ "/tmp/rootfs" +:+ ": " +:+ e0 /\
      [ex_mkdir; ex_pivot (Some "invalid argument")] = [] ++ [Sys os_Getwd (Some e0)]) \/
  (exists a t1,
      filepath_Abs "/tmp/rootfs" env_same_fs [] = (Ret (a, None), t1) /\
      let mk := os_MkdirAll (Join [a; oldRootDir]) mode_0700 in
      let pv := syscall_PivotRoot a (Join [a; oldRootDir]) in
      (exists e0, "pivot_root failed: invalid argument"
                  = "cannot create old_root directory: " +:+ e0 /\
                  [ex_mkdir; ex_pivot (Some "invalid argument")]
                  = t1 ++ [Sys mk (Some e0)]) \/
      (exists e0, "pivot_root failed: invalid argument" = "pivot_root failed: " +:+ e0 /\
                  [ex_mkdir; ex_pivot (Some "invalid argument")]
                  = t1 ++ [Sys mk None; Sys pv (Some e0)]) \/
      (exists e0, "pivot_root failed: invalid argument"
                  = "chdir to / failed after pivot_root: " +:+ e0 /\
                  [ex_mkdir; ex_pivot (Some "invalid argument")]
                  = t1 ++ [Sys mk None; Sys pv None;
                           Sys (syscall_Chdir "/") (Some e0)])).
Proof.
  apply (primary_failure_inversion "/tmp/rootfs" env_same_fs []).
  vm_compute. reflexivity.
Defined.


Lemma primary_success_state_witness :
  exists a t1 eu er,
    filepath_Abs "/tmp/rootfs" env_ok [] = (Ret (a, None), t1) /\
    [ex_mkdir; ex_pivot None; Sys (syscall_Chdir "/") None;
     Sys (syscall_Unmount "/.old_root" MNT_DETACH) None;
     Sys (os_Remove "/.old_root") None;
     Print ("Successfully using pivot_root" +:+ LF)]
    = t1 ++ primary_success_events a eu er /\
    fs_root (fs_after (env_fs env_ok)
               [ex_mkdir; ex_pivot None; Sys (syscall_Chdir "/") None;
                Sys (syscall_Unmount "/.old_root" MNT_DETACH) None;
                Sys (os_Remove "/.old_root") None;
                Print ("Successfully using pivot_root" +:+ LF)]) = a /\
    fs_cwd (fs_after (env_fs env_ok)
              [ex_mkdir; ex_pivot None; Sys (syscall_Chdir "/") None;
               Sys (syscall_Unmount "/.old_root" MNT_DETACH) None;
               Sys (os_Remove "/.old_root") None;
               Print ("Successfully using pivot_root" +:+ LF)]) = a /\
    (er = None ->
     Join [a; oldRootDir] ∉
       fs_entries (fs_after (env_fs env_ok)
                     [ex_mkdir; ex_pivot None; Sys (syscall_Chdir "/") None;
                      Sys (syscall_Unmount "/.old_root" MNT_DETACH) None;
                      Sys (os_Remove "/.old_root") None;
                      Print ("Successfully using pivot_root" +:+ LF)])).
Proof.
  apply (primary_success_state "/tmp/rootfs" env_ok []);
    [vm_compute; reflexivity | reflexivity | left; reflexivity].
Defined.


Lemma primary_success_skips_chroot_witness :
  (exists err l,
     snd (child ["/tmp/rootfs"; "ls"] env_ok [])
     = ex_primary_done ++ Sys mount_proc_call err :: l) /\
  exists l,
    snd (child ["/tmp/rootfs"; "ls"] env_ok []) = [] ++ l /\
    Forall (fun ev => is_chroot_call ev = false) l.
Proof.
  apply (primary_success_skips_chroot env_ok "/tmp/rootfs" "ls" [] [] ex_stat);
    vm_compute; reflexivity.
Defined.

Lemma fallback_on_swapped_root_witness :
  exists h err l,
    h = (ex_stat ++ [Print (resolution_message "ls"); ex_mkdir; ex_pivot None])
        ++ [Sys (syscall_Chdir "/") (Some "no such file or directory");
            Print (fallback_warning
                     ("chdir to / failed after pivot_root: "
                      +:+ "no such file or directory"))] /\
    snd (child ["/tmp/rootfs"; "ls"] env_no_chdir [])
      = h ++ Sys (syscall_Chroot "/tmp/rootfs") err :: l /\
    fs_root (fs_after (env_fs env_no_chdir) h)
      = resolve (fs_after (env_fs env_no_chdir) []) "/tmp/rootfs".
Proof.
  apply (fallback_on_swapped_root env_no_chdir "/tmp/rootfs" "ls" [] [] ex_stat
           "/tmp/rootfs"
           (ex_stat ++ [Print (resolution_message "ls")])
           (ex_stat ++ [Print (resolution_message "ls"); ex_mkdir]));
    vm_compute; reflexivity.
Defined.

Lemma mount_failure_is_fatal_witness :
  child ["/tmp/rootfs"; "ls"] env_no_mount [] =
    (Exit 1,
     ex_primary_done ++ [Sys mount_proc_call (Some "operation not permitted");
                         Print (LF +:+ "operation not permitted" +:+ LF)]).
Proof.
  apply (mount_failure_is_fatal env_no_mount "/tmp/rootfs" "ls" [] [] ex_primary_done).
  - exists ex_stat. split; [vm_compute; reflexivity | left; vm_compute; reflexivity].
  - reflexivity.
Defined.

Lemma start_failure_is_fatal_witness :
  child ["/tmp/rootfs"; "ls"] env_no_start [] =
    (Exit 1,
     ex_primary_done
     ++ [Sys mount_proc_call None;
         Sys (cmd_Start (exec_Command (resolved "ls") []))
             (Some "fork/exec: no such file or directory");
         Print (LF +:+ "fork/exec: no such file or directory" +:+ LF)]).
Proof.
  apply (start_failure_is_fatal env_no_start "/tmp/rootfs" "ls" [] [] ex_primary_done).
  - exists ex_stat. split; [vm_compute; reflexivity | left; vm_compute; reflexivity].
  - reflexivity.
  - reflexivity.
Defined.

Lemma target_status_is_collapsed_witness :
  child ["/tmp/rootfs"; "ls"] env_exits_3 [] =
    (Exit 1,
     (ex_primary_done ++ [Sys mount_proc_call None;
                          Sys (cmd_Start (exec_Command (resolved "ls") [])) None])
     ++ [Sys (cmd_Wait (exec_Command (resolved "ls") []))
             (Some (status_text (Exited 3)));
         Print (LF +:+ status_text (Exited 3) +:+ LF)]).
Proof.
  apply (target_status_is_collapsed env_exits_3 "/tmp/rootfs" "ls" [] []
           ex_primary_done (Exited 3)).
  - exists ex_stat. split; [vm_compute; reflexivity | left; vm_compute; reflexivity].
  - reflexivity.
  - reflexivity.
  - reflexivity.
  - reflexivity.
Defined.

Lemma stat_failure_is_fatal_witness :
  child ["/tmp/rootfs"; "ls"] env_stat_denied [] =
    (Exit 1,
     [] ++ [Sys (os_Stat "/tmp/rootfs") (Some "stat /tmp/rootfs: permission denied");
            Print (LF +:+ ("rootfs path does not exist: " +:+ "/tmp/rootfs" +:+ ": "
                           +:+ "stat /tmp/rootfs: permission denied") +:+ LF)]).
Proof.
  apply (stat_failure_is_fatal env_stat_denied "/tmp/rootfs" "ls" [] []).
  reflexivity.
Defined.

Lemma every_exit_is_reported_witness :
  (1 = 1 /\ exists l text,
      [Sys (os_Stat "/tmp/does-not-exist") (Some (stat_error "/tmp/does-not-exist"));
       Print (LF +:+ validation_error "/tmp/does-not-exist" +:+ LF)]
      = l ++ [Print text]) /\
  (exit_code (fst (main ["shp"; "child"; "/tmp/does-not-exist"; "ls"]
                       env_missing_root [])) = 0 \/
   exit_code (fst (main ["shp"; "child"; "/tmp/does-not-exist"; "ls"]
                       env_missing_root [])) = 1).
Proof.
  destruct (every_exit_is_reported ["shp"; "child"; "/tmp/does-not-exist"; "ls"]
              env_missing_root []) as [H1 H2].
  split; [|exact H2]. apply H1. vm_compute. reflexivity.
Defined.

Lemma launcher_follows_init_witness :
  run ["/tmp/rootfs"; "ls"] env_exits_3 [] =
    (Exit 1,
     [] ++ [Sys (cmd_Start (run_cmd ["/tmp/rootfs"; "ls"])) None;
            Sys (cmd_Wait (run_cmd ["/tmp/rootfs"; "ls"])) (Some (status_text (Exited 3)));
            Print (LF +:+ status_text (Exited 3) +:+ LF)]).
Proof.
  apply (launcher_follows_init env_exits_3 ["/tmp/rootfs"; "ls"] [] (Exited 3));
    [simpl; lia | reflexivity | reflexivity | reflexivity].
Defined.

Lemma primary_failure_keeps_root_witness :
  fs_root (fs_after (env_fs env_same_fs) [ex_mkdir; ex_pivot (Some "invalid argument")])
    = fs_root (fs_after (env_fs env_same_fs) []) /\
  fs_cwd (fs_after (env_fs env_same_fs) [ex_mkdir; ex_pivot (Some "invalid argument")])
    = fs_cwd (fs_after (env_fs env_same_fs) []).
Proof.
  apply (primary_failure_keeps_root "/tmp/rootfs" env_same_fs []
           "pivot_root failed: invalid argument").
  - vm_compute. reflexivity.
  - intros e0 H. discriminate H.
Defined.

(** X23. In the whole system, where the process the Launcher starts is
    this program in its Init role, the Launcher ends with the exit code of
    Init, and that code is 0 or 1. *)
Theorem launcher_and_init_agree :
  forall lenv ienv args,
    (2 <= length args)%nat ->
    (forall h c, env_err lenv h c = None) ->
    fst (fst (launch lenv ienv args)) = snd (fst (launch lenv ienv args)) /\
    (snd (fst (launch lenv ienv args)) = 0 \/ snd (fst (launch lenv ienv args)) = 1).
Proof.
  intros lenv ienv args Hlen Herr. unfold launch.
  pose proof (main_exits_1 (Path (run_cmd args) :: Args (run_cmd args)) ienv [])
    as Hinit.
  destruct (main _ ienv []) as [iout itrace].
  cbn [fst] in Hinit.
  match goal with
  | |- context [run args ?e []] =>
      pose proof (run_exit_code e args [] (exit_code iout) Hlen
                    (Herr _ _) (Herr _ _) eq_refl) as E;
      destruct (run args e []) as [lout ltrace]
  end.
  cbn [fst snd] in *. rewrite E.
  destruct iout as [u|code]; cbn [exit_code] in *.
  - split; [reflexivity | now left].
  - subst code. split; [reflexivity | now right].
Qed.

Lemma launcher_and_init_agree_witness :
  fst (fst (launch env_ok env_exits_3 ["/tmp/rootfs"; "ls"]))
    = snd (fst (launch env_ok env_exits_3 ["/tmp/rootfs"; "ls"])) /\
  (snd (fst (launch env_ok env_exits_3 ["/tmp/rootfs"; "ls"])) = 0 \/
   snd (fst (launch env_ok env_exits_3 ["/tmp/rootfs"; "ls"])) = 1).
Proof.
  apply (launcher_and_init_agree env_ok env_exits_3 ["/tmp/rootfs"; "ls"]);
    [simpl; lia | reflexivity].
Defined.
